(** * gaps: the Individual of the genetic puzzle solver, and the run command

    A shallow embedding of [gaps/individual.py] and of the option validation
    of [gaps/cli.py].

    Conventions of the embedding.
    - Python integers are [Z]; list positions that are known to be
      non-negative are [nat].
    - The class is embedded with Python floats idealised as exact rationals
      ([Qc], the canonical rationals, so that equality is Leibniz equality).
      [_similarity] is embedded a second time over the arithmetic it is run
      with, and instantiated with IEEE 754 binary64 (Rocq's primitive
      floats), which is what a Python float is; what depends on rounding is
      stated there.
    - Python lists are mutable objects: they live in a store, addressed by
      locations, and a variable holds a location. Individuals are objects in
      the same way (their [_fitness] field is assigned after construction).
    - Exceptions are results: a computation returns either a value or the
      exception it raised, together with the store it leaves behind.
    - numpy's [random_interval] and the Python version are parameters: the
      class is run with whatever generator and interpreter are installed. *)

From Stdlib Require Import ZArith QArith Qcanon List Permutation Lia String PrimFloat.
From stdpp Require Import base gmap list.

Open Scope Z_scope.

(** ** Results *)

Inductive Exn : Type :=
| ValueError
| TypeError
| IndexError
| KeyError
| ZeroDivisionError
| NotImplementedError
| BadParameter.

Inductive Result (A : Type) : Type :=
| Ok (a : A)
| Raise (e : Exn).
Arguments Ok {A} a.
Arguments Raise {A} e.

Definition is_ok {A} (r : Result A) : bool :=
  match r with Ok _ => true | Raise _ => false end.

Definition rbind {A B} (r : Result A) (k : A -> Result B) : Result B :=
  match r with Ok a => k a | Raise e => Raise e end.

(** ** Python list primitives (on the contents of a list object) *)

Section PyList.
Context {A : Type}.

(** [l[i]] for a Python integer [i]: a negative index counts from the end,
    an index out of range raises [IndexError]. *)
Definition py_index (l : list A) (i : Z) : Result A :=
  let n := Z.of_nat (length l) in
  let k := if i <? 0 then i + n else i in
  if (k <? 0) || (n <=? k) then Raise IndexError
  else match l !! Z.to_nat k with
       | Some x => Ok x
       | None => Raise IndexError
       end.

(** One bound of a slice [l[a:b]]: a negative bound counts from the end,
    and the result is clamped to [0 .. len(l)]. *)
Definition py_slice_bound (n : Z) (a : Z) : Z :=
  if a <? 0 then Z.max (a + n) 0 else Z.min a n.

(** [l[a:b]]: never raises. *)
Definition py_slice (l : list A) (a b : Z) : list A :=
  let n := Z.of_nat (length l) in
  let a' := py_slice_bound n a in
  let b' := py_slice_bound n b in
  take (Z.to_nat (b' - a')) (drop (Z.to_nat a') l).

(** [x[i], x[j] = x[j], x[i]] for positions inside the list. *)
Definition swap (l : list A) (i j : nat) : list A :=
  match l !! i, l !! j with
  | Some xi, Some xj => <[j := xi]> (<[i := xj]> l)
  | _, _ => l
  end.
End PyList.

(** [range(n)] for a Python integer [n] (empty when [n <= 0]). *)
Definition py_range (n : Z) : list Z :=
  map Z.of_nat (seq 0 (Z.to_nat n)).

(** ** numpy.random.shuffle on the contents of any list *)

Section Shuffle.
Context {A : Type}.
(** numpy's [random_interval(bitgen_state, max)], as in the class below:
    from a state of the global generator and a bound, the value it returns
    and the state it leaves. *)
Variable random_interval : nat -> nat -> nat * nat.

(** [for i in reversed(range(1, n)): j = random_interval(i);
    x[i], x[j] = x[j], x[i]]: the iterations [i, i-1, .., 1]. *)
Fixpoint shuffle_steps (i : nat) (x : list A) (state : nat) : list A * nat :=
  match i with
  | O => (x, state)
  | S i' =>
      let '(j, state') := random_interval state i in
      shuffle_steps i' (swap x i j) state'
  end.

Definition np_shuffle (x : list A) (state : nat) : list A * nat :=
  shuffle_steps (length x - 1) x state.
End Shuffle.

(** ** The data model *)

Definition loc := positive.

(** The three members of the enumeration [FitnessType]. *)
Inductive FitnessType : Type :=
| Similarity
| Semantic
| Sum.

(** A value passed as [fitness_type], and kept in the field of that name: a
    member of [FitnessType]; a member of another Enum class (one whose
    members equal no integer); or a value that is no Enum member: one that
    equals the integer [n], as [n] itself ([Plain (Some n)]), or one that
    equals no integer, as a string or [None] ([Plain None]). *)
Inductive FitnessArg : Type :=
| Member (ft : FitnessType)
| ForeignMember
| Plain (value : option Z).
Coercion Member : FitnessType >-> FitnessArg.

(** What [in] on an Enum class does with a value that is no Enum member.
    It answers [False] (Python 3.7 and earlier), raises [TypeError] (Python
    3.8 to 3.11), or looks the value up among the values of the members
    (Python 3.12 and later). *)
Inductive Containment : Type :=
| DeniesNonMember
| RaisesOnNonMember
| LooksUpValue.

(** Calls of the two fitness computations, recorded in the order they are
    entered. The record is instrumentation: the source keeps no such log. *)
Inductive Event : Type :=
| CallSimilarity (self : loc)
| CallSemantic (self : loc).

(** [Pixels] is the pixel block of a piece. *)
Record Piece (Pixels : Type) : Type := mkPiece {
  id : Z;
  image : Pixels;
  size : Z;
}.
Arguments mkPiece {Pixels} id image size.
Arguments id {Pixels} p.
Arguments image {Pixels} p.
Arguments size {Pixels} p.

Record Individual : Type := mkIndividual {
  pieces : loc;
  rows : Z;
  columns : Z;
  _fitness : option Qc;
  fitness_type : FitnessArg;
  _piece_mapping : gmap Z nat;
}.

(** The store: list objects, Individual objects, the state of numpy's
    global generator, and the call record. *)
Record World (Pixels : Type) : Type := mkWorld {
  lists : gmap loc (list (Piece Pixels));
  objs : gmap loc Individual;
  rng : nat;
  trace : list Event;
}.
Arguments mkWorld {Pixels} lists objs rng trace.
Arguments lists {Pixels} w.
Arguments objs {Pixels} w.
Arguments rng {Pixels} w.
Arguments trace {Pixels} w.

(** ** The command line: option validation and the [run] command *)

Module Cli.

Definition DEFAULT_GENERATIONS : Z := 20.
Definition DEFAULT_POPULATION : Z := 200.
Definition MIN_PIECE_SIZE : Z := 32.
Definition MAX_PIECE_SIZE : Z := 128.

Definition _validate_piece_size (value : Z) : Result Z :=
  if value <? MIN_PIECE_SIZE then Raise BadParameter
  else if MAX_PIECE_SIZE <? value then Raise BadParameter
  else Ok value.

Definition _validate_positive_integer (value : Z) : Result Z :=
  if value <=? 0 then Raise BadParameter else Ok value.

(** [FitnessType(value)]: the member with that value. *)
Definition FitnessType_of_value (value : Z) : Result FitnessType :=
  if value =? 1 then Ok Similarity
  else if value =? 2 then Ok Semantic
  else if value =? 3 then Ok Sum
  else Raise ValueError.

(** What the body of [run] does to the outside, in order. *)
Inductive Action : Type :=
| Imread
| DetectSize
| Echo (value : Z)
| Makedirs
| NewGeneticAlgorithm (piece_size population_size generations : Z)
    (fitness_type : FitnessType)
| StartEvolution (debug : bool)
| Imwrite
| EchoSolved.

Section Run.
(** Whether [click.Path(exists=True, readable=True)] accepts PUZZLE. *)
Variable puzzle_readable : bool.
(** The size the detector finds, and the length of the list of fittest
    individuals the evolution returns. *)
Variable detected_size : Z.
Variable fittest_count : nat.

(** The body of [run], with the actions done before it returns or
    raises. The arguments of the [GeneticAlgorithm] call are evaluated
    before the call, [FitnessType(fitness_type)] among them. The calls
    into cv2, os and the genetic algorithm are outside the two modules;
    the model follows the body for the case that they return. *)
Definition run (size : option Z) (generations population fitness_type : Z)
    (debug : bool) : Result unit * list Action :=
  let '(size, detect) :=
    match size with
    | None => (detected_size, [DetectSize])
    | Some s => (s, [])
    end in
  let before :=
    [Imread] ++ detect ++ [Echo population; Echo generations; Echo size; Makedirs] in
  match FitnessType_of_value fitness_type with
  | Raise e => (Raise e, before)
  | Ok ft =>
      (Ok tt,
       before ++ [NewGeneticAlgorithm size population generations ft;
                  StartEvolution debug; Imwrite]
              ++ repeat Imwrite fittest_count ++ [EchoSolved])
  end.

(** The command as click invokes it: the path PUZZLE is checked, an
    option that is not given takes its default, the callbacks of
    [--generations] and [--population] run in the order the options come
    on the command line ([population_first] tells which); a parameter that
    fails gives a parameter error, whichever comes first, and the body
    runs when none fails. *)
Definition invoke_run (population_first : bool) (size generations population
    fitness_type : option Z) (debug : bool) : Result unit * list Action :=
  let g := default DEFAULT_GENERATIONS generations in
  let p := default DEFAULT_POPULATION population in
  let checked :=
    if population_first
    then rbind (_validate_positive_integer p) (fun p' =>
         rbind (_validate_positive_integer g) (fun g' => Ok (g', p')))
    else rbind (_validate_positive_integer g) (fun g' =>
         rbind (_validate_positive_integer p) (fun p' => Ok (g', p'))) in
  if negb puzzle_readable then (Raise BadParameter, [])
  else
    match checked with
    | Raise e => (Raise e, [])
    | Ok (g', p') => run size g' p' (default 1 fitness_type) debug
    end.
End Run.

Section Create.
Context {Pixels Image : Type}.
(** Whether [click.Path(exists=True, readable=True)] accepts IMAGE and
    [click.Path(writable=True)] accepts PUZZLE. *)
Variable image_readable : bool.
Variable puzzle_writable : bool.
(** What [cv.imread(image)] returns, and the two functions of [utils],
    which may raise. *)
Variable input_image : Image.
Variable flatten_image : Image -> Z -> Result (list Pixels * Z * Z).
Variable assemble_image : list Pixels -> Z -> Z -> Result Image.
Variable random_interval : nat -> nat -> nat * nat.

(** What the body of [create] does to the outside, in order. *)
Inductive CreateAction : Type :=
| ReadImage
| WriteImage (output_image : Image)
| EchoCreated (count : Z).

(** The body of [create]: the pieces are shuffled in place, so the image
    is assembled from, and the count taken of, the shuffled list. The
    third component is the state of the generator afterwards. *)
Definition create (size : Z) (state : nat)
    : Result unit * list CreateAction * nat :=
  match flatten_image input_image size with
  | Raise e => (Raise e, [ReadImage], state)
  | Ok (pieces, rows, columns) =>
      let '(pieces, state') := np_shuffle random_interval pieces state in
      match assemble_image pieces rows columns with
      | Raise e => (Raise e, [ReadImage], state')
      | Ok output_image =>
          (Ok tt,
           [ReadImage; WriteImage output_image;
            EchoCreated (Z.of_nat (length pieces))],
           state')
      end
  end.

(** The command as click invokes it: the two paths are checked, [--size]
    takes its default when not given and its callback runs; a parameter
    that fails gives a parameter error, whichever comes first, and the body
    runs when none fails. *)
Definition invoke_create (size : option Z) (state : nat)
    : Result unit * list CreateAction * nat :=
  if negb image_readable || negb puzzle_writable
  then (Raise BadParameter, [], state)
  else
    match _validate_piece_size (default MAX_PIECE_SIZE size) with
    | Raise e => (Raise e, [], state)
    | Ok size => create size state
    end.
End Create.

End Cli.

(** ** Sample data *)

Module Sample.
(** Pieces whose pixel block is a single number. *)
Definition piece (n : Z) : Piece Z := mkPiece n (10 * n) 32.

(** A dissimilarity table: the distance of the two ids. *)
Definition dissimilarity (ids : Z * Z) (orientation : string) : Qc :=
  Q2Qc (Z.abs (fst ids - snd ids) # 1).

Definition assemble (ps : list Z) (rows columns : Z) : list Z := ps.

Definition scorer (img : list Z) (shape : Z * Z) : Qc :=
  Q2Qc (Z.of_nat (length img) # 7).

(** A generator: its states are counted, the value is in [0 .. max]. *)
Definition generator (state max : nat) : nat * nat :=
  ((7 * state + 3) mod (S max), S state)%nat.

(** A store holding the caller's list of six pieces, at location 1. *)
Definition six : World Z :=
  mkWorld {[ 1%positive := map piece [0; 1; 2; 3; 4; 5] ]} ∅ 0 [].

(** A store holding a list of three pieces. *)
Definition three : World Z :=
  mkWorld {[ 1%positive := map piece [0; 1; 2] ]} ∅ 0 [].

Definition in_order : list (Piece Z) := map piece [0; 1; 2; 3; 4; 5].
Definition mixed : list (Piece Z) := map piece [3; 1; 5; 0; 4; 2].

Definition in_order_mapping : gmap Z nat :=
  list_to_map [(0, 0%nat); (1, 1%nat); (2, 2%nat); (3, 3%nat); (4, 4%nat); (5, 5%nat)].
Definition mixed_mapping : gmap Z nat :=
  list_to_map [(3, 0%nat); (1, 1%nat); (5, 2%nat); (0, 3%nat); (4, 4%nat); (2, 5%nat)].

(** A store with two arrangements of the six pieces in a grid of two rows
    and three columns, and four Individuals with no fitness cached:
    objects 1, 3 and 4 hold the pieces in order, with fitness types
    Similarity, Semantic and Sum; object 2 holds them mixed, with type
    Similarity. *)
Definition studio : World Z :=
  mkWorld
    (<[ 1%positive := in_order ]> (<[ 2%positive := mixed ]> ∅))
    (<[ 1%positive := mkIndividual 1%positive 2 3 None Similarity in_order_mapping ]>
     (<[ 2%positive := mkIndividual 2%positive 2 3 None Similarity mixed_mapping ]>
     (<[ 3%positive := mkIndividual 1%positive 2 3 None Semantic in_order_mapping ]>
     (<[ 4%positive := mkIndividual 1%positive 2 3 None Sum in_order_mapping ]> ∅))))
    0 [].

(** A store with an Individual of two rows and two columns that holds
    three pieces only, with no fitness cached. *)
Definition short : World Z :=
  mkWorld
    (<[ 1%positive := map piece [0; 1; 2] ]> ∅)
    (<[ 1%positive :=
          mkIndividual 1%positive 2 2 None Similarity
            (list_to_map [(0, 0%nat); (1, 1%nat); (2, 2%nat)]) ]> ∅)
    0 [].

(** Flattening for [create]: the image is its list of pieces, in a grid
    of one row. *)
Definition flatten (img : list Z) (size : Z) : Result (list Z * Z * Z) :=
  Ok (img, 1, Z.of_nat (length img)).

(** Assembling for [create]: the image is the list of its pieces. *)
Definition assemble_checked (ps : list Z) (rows columns : Z) : Result (list Z) :=
  Ok ps.

(** A dissimilarity table in doubles: [tiny], the double nearest to
    [1e-20], for the piece 1 left of the piece 0, and zero elsewhere. *)
Definition tiny : float := (1 / 100000000000000000000)%float.

Definition faint (ids : Z * Z) (orientation : string) : float :=
  if (fst ids =? 1) && (snd ids =? 0) then tiny else 0%float.

(** A store with two Individuals of one row and two columns, with no
    fitness cached: object 1 holds the pieces 0, 1 and object 2 the pieces
    1, 0. *)
Definition duo : World Z :=
  mkWorld
    (<[ 1%positive := map piece [0; 1] ]> (<[ 2%positive := map piece [1; 0] ]> ∅))
    (<[ 1%positive :=
          mkIndividual 1%positive 1 2 None Similarity
            (list_to_map [(0, 0%nat); (1, 1%nat)]) ]>
     (<[ 2%positive :=
          mkIndividual 2%positive 1 2 None Similarity
            (list_to_map [(1, 0%nat); (0, 1%nat)]) ]> ∅))
    0 [].

(** A store with an Individual whose grid has no column: two rows, zero
    columns, over the six pieces in order. *)
Definition degenerate : World Z :=
  mkWorld
    (<[ 1%positive := in_order ]> ∅)
    (<[ 1%positive := mkIndividual 1%positive 2 0 None Similarity in_order_mapping ]> ∅)
    0 [].

(** A store with three Individuals of one row and three columns: object 1
    over the six pieces in order, object 2 over the first three of them,
    object 3 over three pieces with the ids 0, 1, 2 and other pixels and
    sizes. *)
Definition cropped : World Z :=
  mkWorld
    (<[ 1%positive := in_order ]>
     (<[ 2%positive := map piece [0; 1; 2] ]>
     (<[ 3%positive := [mkPiece 0 7 16; mkPiece 1 8 16; mkPiece 2 9 16] ]> ∅)))
    (<[ 1%positive := mkIndividual 1%positive 1 3 None Similarity in_order_mapping ]>
     (<[ 2%positive := mkIndividual 2%positive 1 3 None Similarity in_order_mapping ]>
     (<[ 3%positive := mkIndividual 3%positive 1 3 None Similarity in_order_mapping ]> ∅)))
    0 [].
End Sample.

(** ** The store-passing monad and the class Individual *)

Section Gaps.
Context {Pixels Image : Type}.

Local Abbreviation Piece := (Piece Pixels).
Local Abbreviation World := (World Pixels).

Definition M (A : Type) : Type := World -> Result A * World.

Definition ret {A} (a : A) : M A := fun w => (Ok a, w).

Definition bind {A B} (m : M A) (k : A -> M B) : M B :=
  fun w => match m w with
           | (Ok a, w') => k a w'
           | (Raise e, w') => (Raise e, w')
           end.

Definition raise {A} (e : Exn) : M A := fun w => (Raise e, w).

Definition lift {A} (r : Result A) : M A := fun w => (r, w).

Notation "x <~ m ;; k" := (bind m (fun x => k))
  (at level 100, m at next level, right associativity).
Notation "m ;;; k" := (bind m (fun _ => k))
  (at level 100, right associativity).

(** *** Collaborators that are not part of the two modules *)

(** [ImageAnalysis.get_dissimilarity(ids, orientation)]: the dissimilarity
    table, read with a pair of piece ids and ["LR"] or ["TD"]. *)
Variable get_dissimilarity : Z * Z -> string -> Qc.
(** [utils.assemble_image(pieces, rows, columns)]. *)
Variable assemble_image : list Pixels -> Z -> Z -> Image.
(** [compute_sem_consistency(image, (rows, columns))]. *)
Variable compute_sem_consistency : Image -> Z * Z -> Qc.
(** numpy's [random_interval(bitgen_state, max)]: from a state of the
    global generator and a bound, the value it returns (numpy returns one
    in [0 .. max]) and the state it leaves. How many outputs of the bit
    generator a call takes is inside the function. *)
Variable random_interval : nat -> nat -> nat * nat.
(** The Python version, as far as the class depends on it. *)
Variable enum_contains : Containment.

(** *** Store access *)

(** Reading a list object. A location outside the store cannot be held by
    a Python variable; the model answers [KeyError] there. *)
Definition read_list (l : loc) : M (list Piece) :=
  fun w => match lists w !! l with
           | Some ps => (Ok ps, w)
           | None => (Raise KeyError, w)
           end.

(** A new list object, at a location not yet in the store. *)
Definition alloc_list (ps : list Piece) : M loc :=
  fun w => let l := fresh (dom (lists w)) in
           (Ok l, mkWorld (<[l := ps]> (lists w)) (objs w) (rng w) (trace w)).

Definition read_obj (self : loc) : M Individual :=
  fun w => match objs w !! self with
           | Some o => (Ok o, w)
           | None => (Raise KeyError, w)
           end.

Definition alloc_obj (o : Individual) : M loc :=
  fun w => let l := fresh (dom (objs w)) in
           (Ok l, mkWorld (lists w) (<[l := o]> (objs w)) (rng w) (trace w)).

(** [self._fitness = v] *)
Definition set_fitness (self : loc) (v : Qc) : M unit :=
  fun w => match objs w !! self with
           | Some o =>
               let o' := mkIndividual (pieces o) (rows o) (columns o) (Some v)
                           (fitness_type o) (_piece_mapping o) in
               (Ok tt, mkWorld (lists w) (<[self := o']> (objs w)) (rng w) (trace w))
           | None => (Raise KeyError, w)
           end.

Definition log (e : Event) : M unit :=
  fun w => (Ok tt, mkWorld (lists w) (objs w) (rng w) (trace w ++ [e])).

(** [for x in xs: acc = body(x, acc)], stopping at the first exception. *)
Fixpoint for_each {S : Type} (xs : list Z) (body : Z -> S -> M S) (acc : S) : M S :=
  match xs with
  | [] => ret acc
  | x :: xs' => acc' <~ body x acc ;; for_each xs' body acc'
  end.

(** *** numpy.random.shuffle on a list *)

(** [for i in reversed(range(1, n)): j = random_interval(i);
    x[i], x[j] = x[j], x[i]]. [shuffle_from i] runs the iterations
    [i, i-1, .., 1]. *)
Fixpoint shuffle_from (i : nat) (x : list Piece) (state : nat) : list Piece * nat :=
  match i with
  | O => (x, state)
  | S i' =>
      let '(j, state') := random_interval state i in
      shuffle_from i' (swap x i j) state'
  end.

Definition shuffle_list (x : list Piece) (state : nat) : list Piece * nat :=
  shuffle_from (length x - 1) x state.

(** The shuffle is in place: it updates the list object it is given. *)
Definition np_random_shuffle (l : loc) : M unit :=
  fun w => match lists w !! l with
           | Some ps =>
               let '(ps', c) := shuffle_list ps (rng w) in
               (Ok tt, mkWorld (<[l := ps']> (lists w)) (objs w) c (trace w))
           | None => (Raise KeyError, w)
           end.

(** *** class Individual *)

Definition FITNESS_FACTOR : Qc := Q2Qc (1000 # 1).

(** [{piece.id: index for index, piece in enumerate(pieces)}]: the entries
    are inserted from the first position on, so a later piece with the
    same id replaces the earlier entry. *)
Fixpoint build_mapping (index : nat) (ps : list Piece) (m : gmap Z nat) : gmap Z nat :=
  match ps with
  | [] => m
  | piece :: ps' => build_mapping (S index) ps' (<[id piece := index]> m)
  end.

(** [fitness_type in FitnessType]. A member is in; a member of another
    Enum class is not. For a value that is no Enum member the answer is
    that of the Python version; where the value is looked up, the test
    holds when it is the value of a member (1, 2, 3). *)
Definition in_FitnessType (fitness_type : FitnessArg) : Result bool :=
  match fitness_type with
  | Member _ => Ok true
  | ForeignMember => Ok false
  | Plain value =>
      match enum_contains with
      | DeniesNonMember => Ok false
      | RaisesOnNonMember => Raise TypeError
      | LooksUpValue =>
          Ok (match value with
              | Some n => is_ok (Cli.FitnessType_of_value n)
              | None => false
              end)
      end
  end.

(** [Individual(pieces, rows, columns, shuffle, fitness_type)]: the
    constructor call, returning the new object. The object enters the
    store when [__init__] returns; when it raises, no reference to the
    half-built object is left. *)
Definition __init__ (pieces : loc) (rows columns : Z) (shuffle : bool)
    (fitness_type : FitnessArg) : M loc :=
  ps <~ read_list pieces ;;
  self_pieces <~ alloc_list ps ;;                      (* pieces[:] *)
  (if shuffle then np_random_shuffle self_pieces else ret tt) ;;;
  member <~ lift (in_FitnessType fitness_type) ;;
  if negb member then raise ValueError
  else
    ps' <~ read_list self_pieces ;;
    alloc_obj (mkIndividual self_pieces rows columns None fitness_type
                 (build_mapping 0 ps' ∅)).

(** [self[key]]: the slice of one grid row. *)
Definition __getitem__ (self : loc) (key : Z) : M (list Piece) :=
  o <~ read_obj self ;;
  ps <~ read_list (pieces o) ;;
  ret (py_slice ps (key * columns o) ((key + 1) * columns o)).

(** [self[i][j].id] *)
Definition cell_id (self : loc) (i j : Z) : M Z :=
  row <~ __getitem__ self i ;;
  p <~ lift (py_index row j) ;;
  ret (id p).

Definition _similarity (self : loc) : M Qc :=
  log (CallSimilarity self) ;;;
  o <~ read_obj self ;;
  let fitness_value := (1 / FITNESS_FACTOR)%Qc in
  (* For each two adjacent pieces in rows *)
  fitness_value <~
    for_each (py_range (rows o)) (fun i acc =>
      for_each (py_range (columns o - 1)) (fun j acc =>
        a <~ cell_id self i j ;;
        b <~ cell_id self i (j + 1) ;;
        ret (acc + get_dissimilarity (a, b) "LR")%Qc) acc) fitness_value ;;
  (* For each two adjacent pieces in columns *)
  fitness_value <~
    for_each (py_range (rows o - 1)) (fun i acc =>
      for_each (py_range (columns o)) (fun j acc =>
        a <~ cell_id self i j ;;
        b <~ cell_id self (i + 1) j ;;
        ret (acc + get_dissimilarity (a, b) "TD")%Qc) acc) fitness_value ;;
  if decide (fitness_value = 0%Qc) then raise ZeroDivisionError
  else ret (FITNESS_FACTOR / fitness_value)%Qc.

Definition to_image (self : loc) : M Image :=
  o <~ read_obj self ;;
  ps <~ read_list (pieces o) ;;
  ret (assemble_image (map image ps) (rows o) (columns o)).

Definition _semantic_consistency (self : loc) : M Qc :=
  log (CallSemantic self) ;;;
  img <~ to_image self ;;
  o <~ read_obj self ;;
  ret (compute_sem_consistency img (rows o, columns o) * Q2Qc (10 # 1))%Qc.

(** The property [fitness]. A member of the enumeration equals itself
    only, so a field that holds another value (an integer that passed the
    test of the constructor) reaches the final [else]. The closing
    [return self._fitness]
    reads the field again; it holds a number by then, the model answers
    [KeyError] for the field still being [None]. *)
Definition fitness (self : loc) : M Qc :=
  o <~ read_obj self ;;
  match _fitness o with
  | None =>
      v <~ match fitness_type o with
           | Member Similarity => _similarity self
           | Member Semantic => _semantic_consistency self
           | Member Sum =>
               a <~ _similarity self ;;
               b <~ _semantic_consistency self ;;
               ret (a + b)%Qc
           | _ => raise NotImplementedError
           end ;;
      set_fitness self v
  | Some _ => ret tt
  end ;;;
  o' <~ read_obj self ;;
  match _fitness o' with
  | Some v => ret v
  | None => raise KeyError
  end.

Definition piece_size (self : loc) : M Z :=
  o <~ read_obj self ;;
  ps <~ read_list (pieces o) ;;
  p <~ lift (py_index ps 0) ;;
  ret (size p).

(** [self._piece_mapping[identifier]] *)
Definition mapping_get (o : Individual) (identifier : Z) : M nat :=
  match _piece_mapping o !! identifier with
  | Some index => ret index
  | None => raise KeyError
  end.

Definition piece_by_id (self : loc) (identifier : Z) : M Piece :=
  o <~ read_obj self ;;
  index <~ mapping_get o identifier ;;
  ps <~ read_list (pieces o) ;;
  lift (py_index ps (Z.of_nat index)).

(** [a % b] on Python integers. *)
Definition py_mod (a b : Z) : Result Z :=
  if b =? 0 then Raise ZeroDivisionError else Ok (a mod b).

(** [self.pieces[i].id] *)
Definition piece_id_at (o : Individual) (i : Z) : M Z :=
  ps <~ read_list (pieces o) ;;
  p <~ lift (py_index ps i) ;;
  ret (id p).

(** [edge(piece_id, orientation)]: the id of the neighbour, or [None] when
    no [if] applies (the function then falls off its end). *)
Definition edge (self : loc) (piece_id : Z) (orientation : string) : M (option Z) :=
  o <~ read_obj self ;;
  index <~ mapping_get o piece_id ;;
  let edge_index := Z.of_nat index in
  if (orientation =? "T")%string && (columns o <=? edge_index) then
    n <~ piece_id_at o (edge_index - columns o) ;; ret (Some n)
  else
  r <~ (if (orientation =? "R")%string
        then c <~ lift (py_mod edge_index (columns o)) ;; ret (c <? columns o - 1)
        else ret false) ;;
  if r then
    n <~ piece_id_at o (edge_index + 1) ;; ret (Some n)
  else
  if (orientation =? "D")%string && (edge_index <? (rows o - 1) * columns o) then
    n <~ piece_id_at o (edge_index + columns o) ;; ret (Some n)
  else
  l <~ (if (orientation =? "L")%string
        then c <~ lift (py_mod edge_index (columns o)) ;; ret (0 <? c)
        else ret false) ;;
  if l then
    n <~ piece_id_at o (edge_index - 1) ;; ret (Some n)
  else ret None.

(** *** The fitness computations as functions of the arrangement

    The loops of [_similarity] only read the store; the functions below
    are the same loops over the contents of the piece list. *)

Definition cell_id_of (ps : list Piece) (columns i j : Z) : Result Z :=
  rbind (py_index (py_slice ps (i * columns) ((i + 1) * columns)) j)
        (fun p => Ok (id p)).

Fixpoint fold_result {S : Type} (xs : list Z) (body : Z -> S -> Result S) (acc : S)
    : Result S :=
  match xs with
  | [] => Ok acc
  | x :: xs' => rbind (body x acc) (fold_result xs' body)
  end.

(** One step of the loops: the two cells are read, their dissimilarity is
    added. *)
Definition pair_step (ps : list Piece) (columns : Z) (orientation : string)
    (i j i' j' : Z) (acc : Qc) : Result Qc :=
  rbind (cell_id_of ps columns i j) (fun a =>
  rbind (cell_id_of ps columns i' j') (fun b =>
  Ok (acc + get_dissimilarity (a, b) orientation)%Qc)).

Definition similarity_of (ps : list Piece) (rows columns : Z) : Result Qc :=
  rbind
    (fold_result (py_range rows) (fun i acc =>
       fold_result (py_range (columns - 1)) (fun j acc =>
         pair_step ps columns "LR" i j i (j + 1) acc) acc)
       (1 / FITNESS_FACTOR)%Qc)
    (fun fitness_value =>
  rbind
    (fold_result (py_range (rows - 1)) (fun i acc =>
       fold_result (py_range columns) (fun j acc =>
         pair_step ps columns "TD" i j (i + 1) j acc) acc)
       fitness_value)
    (fun fitness_value =>
  if decide (fitness_value = 0%Qc) then Raise ZeroDivisionError
  else Ok (FITNESS_FACTOR / fitness_value)%Qc)).

Definition semantic_of (ps : list Piece) (rows columns : Z) : Qc :=
  (compute_sem_consistency (assemble_image (map image ps) rows columns) (rows, columns)
   * Q2Qc (10 # 1))%Qc.

(** The value the property [fitness] computes for an arrangement, and the
    computations it calls for it. *)
Definition fitness_value_of (ft : FitnessArg) (ps : list Piece) (rows columns : Z)
    : Result Qc :=
  match ft with
  | Member Similarity => similarity_of ps rows columns
  | Member Semantic => Ok (semantic_of ps rows columns)
  | Member Sum => rbind (similarity_of ps rows columns) (fun a =>
                  Ok (a + semantic_of ps rows columns)%Qc)
  | _ => Raise NotImplementedError
  end.

Definition calls_of (ft : FitnessArg) (self : loc) (ps : list Piece)
    (rows columns : Z) : list Event :=
  match ft with
  | Member Similarity => [CallSimilarity self]
  | Member Semantic => [CallSemantic self]
  | Member Sum => if is_ok (similarity_of ps rows columns)
                  then [CallSimilarity self; CallSemantic self]
                  else [CallSimilarity self]
  | _ => []
  end.

(** *** The grid, for stating what the methods compute *)

(** Positions of the row-major layout: cell [(r, c)] is position
    [r * columns + c]. The pairs of horizontally adjacent positions (left,
    right) and of vertically adjacent positions (upper, lower). *)
Definition adjacent_h (rows columns : Z) : list (Z * Z) :=
  flat_map (fun r => map (fun c => (r * columns + c, r * columns + c + 1))
                         (py_range (columns - 1)))
           (py_range rows).

Definition adjacent_v (rows columns : Z) : list (Z * Z) :=
  flat_map (fun r => map (fun c => (r * columns + c, (r + 1) * columns + c))
                         (py_range columns))
           (py_range (rows - 1)).

(** The dissimilarity of the pieces at two positions. *)
Definition pair_dissimilarity (ps : list Piece) (orientation : string)
    (ab : Z * Z) : Qc :=
  match ps !! Z.to_nat (fst ab), ps !! Z.to_nat (snd ab) with
  | Some p, Some q => get_dissimilarity (id p, id q) orientation
  | _, _ => 0%Qc
  end.

Definition sum_Qc (l : list Qc) : Qc := foldr Qcplus 0%Qc l.

Definition total_dissimilarity (ps : list Piece) (rows columns : Z) : Qc :=
  (sum_Qc (map (pair_dissimilarity ps "LR") (adjacent_h rows columns))
   + sum_Qc (map (pair_dissimilarity ps "TD") (adjacent_v rows columns)))%Qc.

Inductive Side : Type := Top | Right | Bottom | Left.

Definition side_code (s : Side) : string :=
  match s with Top => "T" | Right => "R" | Bottom => "D" | Left => "L" end.

Definition opposite (s : Side) : Side :=
  match s with Top => Bottom | Right => Left | Bottom => Top | Left => Right end.

(** Position [k] lies on the boundary of the grid on side [s]. *)
Definition on_boundary (rows columns : Z) (s : Side) (k : Z) : bool :=
  match s with
  | Top => k / columns =? 0
  | Right => k mod columns =? columns - 1
  | Bottom => k / columns =? rows - 1
  | Left => k mod columns =? 0
  end.

(** The position adjacent to [k] on side [s]. *)
Definition adjacent_position (columns : Z) (s : Side) (k : Z) : Z :=
  match s with
  | Top => k - columns
  | Right => k + 1
  | Bottom => k + columns
  | Left => k - 1
  end.

(** An Individual of the data model: the object [o] at [self], its piece
    list [ps] with one piece per cell of the grid. *)
Definition grid_individual (w : World) (self : loc) (o : Individual)
    (ps : list Piece) : Prop :=
  objs w !! self = Some o /\
  lists w !! pieces o = Some ps /\
  0 <= rows o /\ 0 <= columns o /\
  Z.of_nat (length ps) = rows o * columns o.

(** The mapping of [o] is the one the constructor builds from [ps]. *)
Definition mapping_built (o : Individual) (ps : list Piece) : Prop :=
  _piece_mapping o = build_mapping 0 ps ∅.

(** [n] successive reads of the property [fitness]. *)
Fixpoint fitness_reads (n : nat) (self : loc) : M (list Qc) :=
  match n with
  | O => ret []
  | S n' => v <~ fitness self ;; vs <~ fitness_reads n' self ;; ret (v :: vs)
  end.

(** The contents of the new Individual's own list. *)
Definition arranged (ps : list Piece) (shuffle : bool) (state : nat) : list Piece :=
  if shuffle then fst (shuffle_list ps state) else ps.

(** The store [w] with the calls [es] added to its record. *)
Definition logged (w : World) (es : list Event) : World :=
  mkWorld (lists w) (objs w) (rng w) (trace w ++ es).

(** The store [w] with [v] cached as the fitness of the object [o] at
    [self]. *)
Definition cached (w : World) (self : loc) (o : Individual) (v : Qc) : World :=
  mkWorld (lists w)
          (<[self := mkIndividual (pieces o) (rows o) (columns o) (Some v)
                       (fitness_type o) (_piece_mapping o)]> (objs w))
          (rng w) (trace w).

(** A computation that leaves every store as it finds it. *)
Definition read_only {A : Type} (m : M A) : Prop := forall w, snd (m w) = w.

(** *** [_similarity] over the arithmetic it is run with

    The method once more, with the numbers and their operations as
    parameters: [one] and [factor] are the integers 1 and
    [FITNESS_FACTOR] as numbers, [add] is the sum and [div] the true
    division, which raises [ZeroDivisionError] for a divisor that
    [is_zero]; [table] is the dissimilarity table in these numbers. *)
Section Arithmetic.
Context {R : Type}.
Variables add div : R -> R -> R.
Variable is_zero : R -> bool.
Variables one factor : R.
Variable table : Z * Z -> string -> R.

(** [x / y] *)
Definition true_div (x y : R) : Result R :=
  if is_zero y then Raise ZeroDivisionError else Ok (div x y).

Definition _similarity_in (self : loc) : M R :=
  log (CallSimilarity self) ;;;
  o <~ read_obj self ;;
  fitness_value <~ lift (true_div one factor) ;;
  (* For each two adjacent pieces in rows *)
  fitness_value <~
    for_each (py_range (rows o)) (fun i acc =>
      for_each (py_range (columns o - 1)) (fun j acc =>
        a <~ cell_id self i j ;;
        b <~ cell_id self i (j + 1) ;;
        ret (add acc (table (a, b) "LR"))) acc) fitness_value ;;
  (* For each two adjacent pieces in columns *)
  fitness_value <~
    for_each (py_range (rows o - 1)) (fun i acc =>
      for_each (py_range (columns o)) (fun j acc =>
        a <~ cell_id self i j ;;
        b <~ cell_id self (i + 1) j ;;
        ret (add acc (table (a, b) "TD"))) acc) fitness_value ;;
  lift (true_div factor fitness_value).

(** The same loops over the contents of the piece list. *)
Definition pair_step_in (ps : list Piece) (columns : Z) (orientation : string)
    (i j i' j' : Z) (acc : R) : Result R :=
  rbind (cell_id_of ps columns i j) (fun a =>
  rbind (cell_id_of ps columns i' j') (fun b =>
  Ok (add acc (table (a, b) orientation)))).

Definition similarity_in (ps : list Piece) (rows columns : Z) : Result R :=
  rbind (true_div one factor) (fun fitness_value =>
  rbind
    (fold_result (py_range rows) (fun i acc =>
       fold_result (py_range (columns - 1)) (fun j acc =>
         pair_step_in ps columns "LR" i j i (j + 1) acc) acc)
       fitness_value)
    (fun fitness_value =>
  rbind
    (fold_result (py_range (rows - 1)) (fun i acc =>
       fold_result (py_range columns) (fun j acc =>
         pair_step_in ps columns "TD" i j (i + 1) j acc) acc)
       fitness_value)
    (fun fitness_value => true_div factor fitness_value))).

(** The id of the piece at a position of the list (0 outside the list). *)
Definition id_at (ps : list Piece) (k : Z) : Z :=
  match ps !! Z.to_nat k with
  | Some p => id p
  | None => 0
  end.

(** The entry of the table for the pieces at two positions, and the
    entries for the adjacent pairs of the grid in the order the loops
    visit them: the horizontal pairs row by row, then the vertical
    pairs row by row. *)
Definition pair_entry (ps : list Piece) (orientation : string) (ab : Z * Z) : R :=
  table (id_at ps (fst ab), id_at ps (snd ab)) orientation.

Definition pair_entries (ps : list Piece) (rows columns : Z) : list R :=
  map (pair_entry ps "LR") (adjacent_h rows columns)
  ++ map (pair_entry ps "TD") (adjacent_v rows columns).
End Arithmetic.

(** [_similarity] as Python runs it: a Python float is an IEEE 754
    binary64 number, [1 / 1000] and [1000 / fitness_value] are the
    correctly rounded quotients, [+=] is the correctly rounded sum, and a
    division by a zero of either sign raises. The table holds doubles. *)
Definition _similarity_f64 (table : Z * Z -> string -> float) (self : loc) : M float :=
  _similarity_in PrimFloat.add PrimFloat.div (fun x => PrimFloat.eqb x 0%float)
    1%float 1000%float table self.

(** ** Facts about the list primitives *)

Lemma py_index_nat {A} (l : list A) (k : nat) (x : A) :
  l !! k = Some x -> py_index l (Z.of_nat k) = Ok x.
Proof.
  intros H. pose proof (lookup_lt_Some _ _ _ H) as Hlt.
  unfold py_index.
  destruct (Z.ltb_spec (Z.of_nat k) 0) as [?|_]; [lia|].
  destruct (Z.ltb_spec (Z.of_nat k) 0) as [?|_]; [lia|].
  destruct (Z.leb_spec (Z.of_nat (length l)) (Z.of_nat k)) as [?|_]; [lia|].
  simpl. rewrite Nat2Z.id, H. reflexivity.
Qed.

Lemma py_index_inside {A} (l : list A) (i : Z) :
  0 <= i < Z.of_nat (length l) ->
  exists x, l !! Z.to_nat i = Some x /\ py_index l i = Ok x.
Proof.
  intros Hi.
  destruct (lookup_lt_is_Some_2 l (Z.to_nat i)) as [x Hx]; [lia|].
  exists x. split; [assumption|].
  rewrite <- (Z2Nat.id i) by lia. apply py_index_nat, Hx.
Qed.

Lemma py_index_beyond {A} (l : list A) (i : Z) :
  Z.of_nat (length l) <= i -> py_index l i = Raise IndexError.
Proof.
  intros Hi. unfold py_index.
  destruct (Z.ltb_spec i 0) as [?|_]; [lia|].
  destruct (Z.ltb_spec i 0) as [?|_]; [lia|].
  destruct (Z.leb_spec (Z.of_nat (length l)) i) as [_|?]; [reflexivity|lia].
Qed.

Lemma elem_of_py_range (n x : Z) : x ∈ py_range n <-> 0 <= x < n.
Proof.
  unfold py_range. rewrite list_elem_of_fmap. split.
  - intros (k & -> & Hk). apply elem_of_seq in Hk. lia.
  - intros Hx. exists (Z.to_nat x). split; [lia|]. apply elem_of_seq. lia.
Qed.

Lemma NoDup_py_range (n : Z) : NoDup (py_range n).
Proof.
  unfold py_range. apply NoDup_fmap_2; [|apply NoDup_seq].
  intros x y. apply Nat2Z.inj.
Qed.

Lemma swap_Permutation {A} (l : list A) (i j : nat) : swap l i j ≡ₚ l.
Proof.
  unfold swap. destruct (l !! i) as [xi|] eqn:Hi; [|reflexivity].
  destruct (l !! j) as [xj|] eqn:Hj; [|reflexivity].
  apply Permutation_insert_swap; assumption.
Qed.

Lemma shuffle_from_Permutation (i : nat) : forall (x : list Piece) (state : nat),
  fst (shuffle_from i x state) ≡ₚ x.
Proof.
  induction i as [|i IH]; intros x state; cbn [shuffle_from]; [reflexivity|].
  destruct (random_interval state (S i)) as [j state'].
  rewrite IH. apply swap_Permutation.
Qed.

Lemma shuffle_list_Permutation (x : list Piece) (state : nat) :
  fst (shuffle_list x state) ≡ₚ x.
Proof. apply shuffle_from_Permutation. Qed.

(** ** Facts about the id-to-index mapping *)

Lemma build_mapping_other (ps : list Piece) : forall (n : nat) (m : gmap Z nat) (key : Z),
  key ∉ map id ps -> build_mapping n ps m !! key = m !! key.
Proof.
  induction ps as [|q ps IH]; intros n m key Hk; simpl; [reflexivity|].
  simpl in Hk. apply not_elem_of_cons in Hk as [Hne Hk].
  rewrite IH by assumption. apply lookup_insert_ne. congruence.
Qed.

Lemma build_mapping_lookup (ps : list Piece) :
  forall (n : nat) (m : gmap Z nat) (k : nat) (p : Piece),
  NoDup (map id ps) -> ps !! k = Some p ->
  build_mapping n ps m !! id p = Some (n + k)%nat.
Proof.
  induction ps as [|q ps IH]; intros n m k p Hnd Hk; [discriminate|].
  simpl in Hnd. apply NoDup_cons in Hnd as [Hq Hnd].
  destruct k as [|k]; simpl in *.
  - injection Hk as ->. rewrite build_mapping_other by assumption.
    rewrite lookup_insert_eq. f_equal. lia.
  - rewrite (IH _ _ k p) by assumption. f_equal. lia.
Qed.

(** ** The constructor *)

Lemma arranged_Permutation ps shuffle state : arranged ps shuffle state ≡ₚ ps.
Proof.
  unfold arranged. destruct shuffle; [apply shuffle_list_Permutation|reflexivity].
Qed.

Lemma fresh_list_loc (w : World) : lists w !! fresh (dom (lists w)) = None.
Proof. apply not_elem_of_dom, is_fresh. Qed.

Lemma fresh_obj_loc (w : World) : objs w !! fresh (dom (objs w)) = None.
Proof. apply not_elem_of_dom, is_fresh. Qed.

(** What a construction returns and leaves behind: the copy of the list
    is made, and shuffled, before the fitness type is tested. *)
Lemma init_run (w : World) (l : loc) (ps : list Piece) (r c : Z)
    (shuffle : bool) (v : FitnessArg) :
  lists w !! l = Some ps ->
  let own := fresh (dom (lists w)) in
  let self := fresh (dom (objs w)) in
  let ps' := arranged ps shuffle (rng w) in
  let rng' := if shuffle then snd (shuffle_list ps (rng w)) else rng w in
  __init__ l r c shuffle v w =
    match in_FitnessType v with
    | Raise e => (Raise e, mkWorld (<[own := ps']> (lists w)) (objs w) rng' (trace w))
    | Ok false =>
        (Raise ValueError, mkWorld (<[own := ps']> (lists w)) (objs w) rng' (trace w))
    | Ok true =>
        (Ok self,
         mkWorld (<[own := ps']> (lists w))
                 (<[self := mkIndividual own r c None v (build_mapping 0 ps' ∅)]> (objs w))
                 rng' (trace w))
    end.
Proof.
  intros Hl own self ps' rng'.
  unfold __init__, bind, read_list, alloc_list, np_random_shuffle, alloc_obj, ret,
    lift, raise.
  rewrite Hl. cbn [lists objs rng trace]. fold own.
  destruct shuffle; cbn [lists objs rng trace].
  - rewrite lookup_insert_eq.
    destruct (shuffle_list ps (rng w)) as [qs cur] eqn:Hs.
    cbn [lists objs rng trace]. rewrite insert_insert_eq.
    subst ps' rng'. unfold arranged. rewrite Hs. cbn [fst snd].
    destruct (in_FitnessType v) as [[|]|e]; cbn [negb lists];
      rewrite ?lookup_insert_eq; reflexivity.
  - subst ps' rng'. unfold arranged.
    destruct (in_FitnessType v) as [[|]|e]; cbn [negb lists];
      rewrite ?lookup_insert_eq; reflexivity.
Qed.

(** What a successful construction returns and leaves behind. *)
Lemma init_member (w : World) (l : loc) (ps : list Piece) (r c : Z)
    (shuffle : bool) (ft : FitnessType) :
  lists w !! l = Some ps ->
  let own := fresh (dom (lists w)) in
  let self := fresh (dom (objs w)) in
  let ps' := arranged ps shuffle (rng w) in
  __init__ l r c shuffle (Member ft) w =
    (Ok self,
     mkWorld (<[own := ps']> (lists w))
             (<[self := mkIndividual own r c None ft (build_mapping 0 ps' ∅)]> (objs w))
             (if shuffle then snd (shuffle_list ps (rng w)) else rng w)
             (trace w)).
Proof.
  intros Hl own self ps'.
  exact (init_run w l ps r c shuffle (Member ft) Hl).
Qed.


(** The constructor leaves every list of the store as it was. *)
Lemma init_keeps_lists (w : World) (l : loc) (r c : Z) (shuffle : bool)
    (ft : FitnessArg) (l0 : loc) (ps0 : list Piece) :
  lists w !! l0 = Some ps0 ->
  lists (snd (__init__ l r c shuffle ft w)) !! l0 = Some ps0.
Proof.
  intros H0.
  assert (Hne : fresh (dom (lists w)) <> l0).
  { intros <-. rewrite fresh_list_loc in H0. discriminate. }
  destruct (lists w !! l) as [ps|] eqn:Hl.
  - rewrite (init_run w l ps r c shuffle ft Hl). cbv zeta.
    destruct (in_FitnessType ft) as [[|]|e]; cbn [snd lists];
      rewrite lookup_insert_ne by assumption; assumption.
  - unfold __init__, bind, read_list. rewrite Hl. assumption.
Qed.

(** Looking a piece up by its id, in any Individual whose mapping is the
    one built from its piece list and whose ids are pairwise distinct. *)
Lemma piece_by_id_lookup (w : World) (self : loc) (o : Individual)
    (ps : list Piece) (k : nat) (p : Piece) :
  objs w !! self = Some o -> lists w !! pieces o = Some ps ->
  mapping_built o ps -> NoDup (map id ps) -> ps !! k = Some p ->
  piece_by_id self (id p) w = (Ok p, w).
Proof.
  intros Ho Hl Hm Hnd Hk.
  unfold piece_by_id, bind, read_obj, mapping_get, read_list, lift, ret.
  rewrite Ho, Hm, (build_mapping_lookup ps 0 ∅ k p Hnd Hk). simpl.
  rewrite Hl, (py_index_nat ps k p Hk). reflexivity.
Qed.

(** C2. For a piece sequence in which each id occurs once, construction
    succeeds, with or without shuffling, and the pieces of the new
    Individual are a permutation of the sequence: the same ids, each
    exactly once. *)
Theorem C2_construction_is_a_permutation (w : World) (l : loc) (ps : list Piece)
    (r c : Z) (shuffle : bool) (ft : FitnessType) :
  lists w !! l = Some ps ->
  NoDup (map id ps) ->
  exists (self : loc) (o : Individual) (ps' : list Piece),
    fst (__init__ l r c shuffle (Member ft) w) = Ok self /\
    objs (snd (__init__ l r c shuffle (Member ft) w)) !! self = Some o /\
    lists (snd (__init__ l r c shuffle (Member ft) w)) !! pieces o = Some ps' /\
    ps' ≡ₚ ps /\
    NoDup (map id ps') /\
    (forall i : Z, i ∈ map id ps' <-> i ∈ map id ps).
Proof.
  intros Hl Hnd. rewrite (init_member w l ps r c shuffle ft Hl).
  eexists _, _, (arranged ps shuffle (rng w)). cbn [fst snd lists objs].
  split; [reflexivity|]. split; [apply lookup_insert_eq|].
  cbn [pieces]. split; [apply lookup_insert_eq|].
  pose proof (arranged_Permutation ps shuffle (rng w)) as Hp.
  assert (Hq : map id (arranged ps shuffle (rng w)) ≡ₚ map id ps)
    by (apply Permutation_map, Hp).
  split; [exact Hp|]. split.
  - rewrite Hq. exact Hnd.
  - intros i. rewrite Hq. reflexivity.
Qed.

(** C9. In the Individual that construction yields from pieces with
    pairwise distinct ids, [piece_by_id] applied to the id of the piece at
    index [k] returns that piece: the mapping built at construction is a
    left inverse of indexing. *)
Theorem C9_piece_by_id_inverts_indexing (w : World) (l : loc) (ps : list Piece)
    (r c : Z) (shuffle : bool) (ft : FitnessType) :
  lists w !! l = Some ps ->
  NoDup (map id ps) ->
  exists (self : loc) (o : Individual) (ps' : list Piece),
    let w' := snd (__init__ l r c shuffle (Member ft) w) in
    fst (__init__ l r c shuffle (Member ft) w) = Ok self /\
    objs w' !! self = Some o /\
    lists w' !! pieces o = Some ps' /\
    mapping_built o ps' /\
    forall (k : nat) (p : Piece),
      ps' !! k = Some p -> piece_by_id self (id p) w' = (Ok p, w').
Proof.
  intros Hl Hnd.
  pose proof (init_member w l ps r c shuffle ft Hl) as Hi. cbv zeta in Hi.
  rewrite Hi. cbv zeta. cbn [fst snd].
  set (ps' := arranged ps shuffle (rng w)).
  set (o := mkIndividual (fresh (dom (lists w))) r c None ft (build_mapping 0 ps' ∅)).
  assert (Hnd' : NoDup (map id ps')).
  { assert (Hq : map id ps' ≡ₚ map id ps)
      by (apply Permutation_map, arranged_Permutation).
    rewrite Hq. exact Hnd. }
  exists (fresh (dom (objs w))), o, ps'. cbn [lists objs].
  split; [reflexivity|]. split; [apply lookup_insert_eq|].
  split; [apply lookup_insert_eq|]. split; [reflexivity|].
  intros k p Hk.
  apply (piece_by_id_lookup _ _ o ps' k p); cbn [lists objs pieces];
    try apply lookup_insert_eq; try assumption; reflexivity.
Qed.

(** C10. Construction does not change the caller's piece list: the
    constructor works on a copy, a list of its own at another location,
    so the caller's list holds the same pieces in the same order after
    the call, whether the shuffle flag is set and whether the call returns
    or raises. *)
Theorem C10_caller_list_unchanged (w : World) (l : loc) (ps : list Piece)
    (r c : Z) (shuffle : bool) (ft : FitnessArg) :
  lists w !! l = Some ps ->
  let w' := snd (__init__ l r c shuffle ft w) in
  lists w' !! l = Some ps /\
  forall (self : loc) (o : Individual),
    fst (__init__ l r c shuffle ft w) = Ok self ->
    objs w' !! self = Some o ->
    pieces o <> l /\
    exists ps', lists w' !! pieces o = Some ps' /\ ps' ≡ₚ ps.
Proof.
  intros Hl w'. split; [apply init_keeps_lists, Hl|].
  intros self o Hs Ho. subst w'.
  rewrite (init_run w l ps r c shuffle ft Hl) in *. cbv zeta in *.
  destruct (in_FitnessType ft) as [[|]|e]; [|discriminate..].
  cbn [fst snd lists objs] in *. injection Hs as <-.
  rewrite lookup_insert_eq in Ho. injection Ho as <-. cbn [pieces]. split.
  - intros E. rewrite <- E, fresh_list_loc in Hl. discriminate.
  - eexists. split; [apply lookup_insert_eq|apply arranged_Permutation].
Qed.

(** C7, as the code has it. The constructor does not compare the number
    of pieces with [rows * columns]: for every piece sequence and every
    grid shape, construction with a member of [FitnessType] succeeds, and
    the new Individual records the given shape and holds all the pieces of
    the sequence: its list is a permutation of the sequence (the sequence
    itself when the shuffle flag is off), so it has as many pieces. *)
Theorem C7_construction_accepts_any_piece_count (w : World) (l : loc)
    (ps : list Piece) (r c : Z) (shuffle : bool) (ft : FitnessType) :
  lists w !! l = Some ps ->
  exists (self : loc) (o : Individual) (ps' : list Piece),
    let w' := snd (__init__ l r c shuffle (Member ft) w) in
    fst (__init__ l r c shuffle (Member ft) w) = Ok self /\
    objs w' !! self = Some o /\
    rows o = r /\ columns o = c /\
    lists w' !! pieces o = Some ps' /\
    ps' ≡ₚ ps /\
    (shuffle = false -> ps' = ps) /\
    length ps' = length ps.
Proof.
  intros Hl. rewrite (init_member w l ps r c shuffle ft Hl).
  eexists _, _, _. cbv zeta. cbn [fst snd lists objs].
  split; [reflexivity|]. split; [apply lookup_insert_eq|].
  cbn [rows columns pieces]. split; [reflexivity|]. split; [reflexivity|].
  split; [apply lookup_insert_eq|].
  split; [apply arranged_Permutation|].
  split; [intros ->; reflexivity|].
  apply Permutation_length, arranged_Permutation.
Qed.

(** ** Running the methods in a store *)

Lemma getitem_run (w : World) (self : loc) (o : Individual) (ps : list Piece) (key : Z) :
  objs w !! self = Some o -> lists w !! pieces o = Some ps ->
  __getitem__ self key w =
    (Ok (py_slice ps (key * columns o) ((key + 1) * columns o)), w).
Proof.
  intros Ho Hl. unfold __getitem__, bind, read_obj, read_list, ret.
  rewrite Ho, Hl. reflexivity.
Qed.

Lemma cell_id_run (w : World) (self : loc) (o : Individual) (ps : list Piece) (i j : Z) :
  objs w !! self = Some o -> lists w !! pieces o = Some ps ->
  cell_id self i j w = (cell_id_of ps (columns o) i j, w).
Proof.
  intros Ho Hl. unfold cell_id, bind. rewrite (getitem_run w self o ps i Ho Hl).
  unfold cell_id_of, lift, ret, rbind.
  destruct (py_index _ j); reflexivity.
Qed.

(** A loop whose body only reads the store is the fold of its results. *)
Lemma for_each_pure {S : Type} (w : World) (body : Z -> S -> M S)
    (f : Z -> S -> Result S) (xs : list Z) :
  (forall x acc, body x acc w = (f x acc, w)) ->
  forall acc, for_each xs body acc w = (fold_result xs f acc, w).
Proof.
  intros Hb. induction xs as [|x xs IH]; intros acc; simpl; [reflexivity|].
  unfold bind. rewrite Hb. destruct (f x acc) as [acc'|e]; simpl; [apply IH|reflexivity].
Qed.

Lemma pair_step_run (w : World) (self : loc) (o : Individual) (ps : list Piece)
    (orientation : string) (i j i' j' : Z) (acc : Qc) :
  objs w !! self = Some o -> lists w !! pieces o = Some ps ->
  (a <~ cell_id self i j ;;
   b <~ cell_id self i' j' ;;
   ret (acc + get_dissimilarity (a, b) orientation)%Qc) w =
  (pair_step ps (columns o) orientation i j i' j' acc, w).
Proof.
  intros Ho Hl. unfold bind, pair_step, rbind.
  rewrite (cell_id_run w self o ps i j Ho Hl).
  destruct (cell_id_of ps (columns o) i j) as [a|e]; [|reflexivity].
  rewrite (cell_id_run w self o ps i' j' Ho Hl).
  destruct (cell_id_of ps (columns o) i' j') as [b|e]; reflexivity.
Qed.

Lemma similarity_run (w : World) (self : loc) (o : Individual) (ps : list Piece) :
  objs w !! self = Some o -> lists w !! pieces o = Some ps ->
  _similarity self w =
    (similarity_of ps (rows o) (columns o), logged w [CallSimilarity self]).
Proof.
  intros Ho Hl. unfold _similarity.
  unfold bind at 1. unfold log. fold (logged w [CallSimilarity self]).
  set (w1 := logged w [CallSimilarity self]).
  assert (Ho1 : objs w1 !! self = Some o) by exact Ho.
  assert (Hl1 : lists w1 !! pieces o = Some ps) by exact Hl.
  unfold bind at 1. unfold read_obj at 1. rewrite Ho1.
  unfold similarity_of, rbind.
  unfold bind at 1.
  rewrite (for_each_pure w1 _
    (fun i acc => fold_result (py_range (columns o - 1))
       (fun j acc => pair_step ps (columns o) "LR" i j i (j + 1) acc) acc)).
  2:{ intros i acc. apply for_each_pure. intros j acc'.
      apply (pair_step_run w1 self o ps "LR" i j i (j + 1) acc' Ho1 Hl1). }
  destruct (fold_result (py_range (rows o)) _ _) as [v1|e]; [|reflexivity].
  unfold bind at 1.
  rewrite (for_each_pure w1 _
    (fun i acc => fold_result (py_range (columns o))
       (fun j acc => pair_step ps (columns o) "TD" i j (i + 1) j acc) acc)).
  2:{ intros i acc. apply for_each_pure. intros j acc'.
      apply (pair_step_run w1 self o ps "TD" i j (i + 1) j acc' Ho1 Hl1). }
  destruct (fold_result (py_range (rows o - 1)) _ _) as [v2|e]; [|reflexivity].
  destruct (decide (v2 = 0%Qc)); reflexivity.
Qed.

Lemma to_image_run (w : World) (self : loc) (o : Individual) (ps : list Piece) :
  objs w !! self = Some o -> lists w !! pieces o = Some ps ->
  to_image self w = (Ok (assemble_image (map image ps) (rows o) (columns o)), w).
Proof.
  intros Ho Hl. unfold to_image, bind, read_obj, read_list, ret.
  rewrite Ho, Hl. reflexivity.
Qed.

Lemma semantic_run (w : World) (self : loc) (o : Individual) (ps : list Piece) :
  objs w !! self = Some o -> lists w !! pieces o = Some ps ->
  _semantic_consistency self w =
    (Ok (semantic_of ps (rows o) (columns o)), logged w [CallSemantic self]).
Proof.
  intros Ho Hl. unfold _semantic_consistency.
  unfold bind at 1. unfold log. fold (logged w [CallSemantic self]).
  set (w1 := logged w [CallSemantic self]).
  assert (Ho1 : objs w1 !! self = Some o) by exact Ho.
  assert (Hl1 : lists w1 !! pieces o = Some ps) by exact Hl.
  unfold bind. rewrite (to_image_run w1 self o ps Ho1 Hl1).
  unfold read_obj. rewrite Ho1. reflexivity.
Qed.

(** A read of [fitness] that finds the value cached returns it and leaves
    the store as it is. *)
Lemma fitness_cached_run (w : World) (self : loc) (o : Individual) (v : Qc) :
  objs w !! self = Some o -> _fitness o = Some v ->
  fitness self w = (Ok v, w).
Proof.
  intros Ho Hv. unfold fitness, bind, read_obj, ret. rewrite Ho, Hv, Ho, Hv.
  reflexivity.
Qed.

Lemma logged_nil (w : World) : logged w [] = w.
Proof. destruct w. unfold logged. cbn. rewrite app_nil_r. reflexivity. Qed.

(** The first read computes the value, once, and stores it. *)
Lemma fitness_first_run (w : World) (self : loc) (o : Individual) (ps : list Piece) :
  objs w !! self = Some o -> lists w !! pieces o = Some ps -> _fitness o = None ->
  fitness self w =
    let calls := calls_of (fitness_type o) self ps (rows o) (columns o) in
    match fitness_value_of (fitness_type o) ps (rows o) (columns o) with
    | Ok v => (Ok v, cached (logged w calls) self o v)
    | Raise e => (Raise e, logged w calls)
    end.
Proof.
  intros Ho Hl Hn. unfold fitness.
  unfold bind at 1. unfold read_obj at 1. rewrite Ho, Hn.
  unfold fitness_value_of, calls_of.
  destruct (fitness_type o) as [[| |]| |value] eqn:Hft;
    [| | |rewrite logged_nil; reflexivity..].
  - unfold bind. rewrite (similarity_run w self o ps Ho Hl).
    destruct (similarity_of ps (rows o) (columns o)) as [v|e]; [|reflexivity].
    unfold set_fitness, read_obj. cbn [logged objs lists rng trace]. rewrite Ho.
    cbn [objs]. rewrite lookup_insert_eq. cbn [_fitness]. reflexivity.
  - unfold bind. rewrite (semantic_run w self o ps Ho Hl).
    unfold set_fitness, read_obj. cbn [logged objs lists rng trace]. rewrite Ho.
    cbn [objs]. rewrite lookup_insert_eq. cbn [_fitness]. reflexivity.
  - unfold bind. rewrite (similarity_run w self o ps Ho Hl).
    destruct (similarity_of ps (rows o) (columns o)) as [a|e]; [|reflexivity].
    rewrite (semantic_run (logged w [CallSimilarity self]) self o ps Ho Hl).
    unfold ret, set_fitness, read_obj, rbind, is_ok.
    cbn [logged objs lists rng trace]. rewrite Ho.
    cbn [objs]. rewrite lookup_insert_eq. cbn [_fitness].
    rewrite <- app_assoc. reflexivity.
Qed.

(** ** Arithmetic of the Similarity fitness *)

Lemma FITNESS_FACTOR_pos : (0 < FITNESS_FACTOR)%Qc.
Proof. reflexivity. Qed.

Lemma inv_FITNESS_FACTOR_pos : (0 < 1 / FITNESS_FACTOR)%Qc.
Proof. reflexivity. Qed.

Lemma sum_Qc_nonneg (l : list Qc) :
  (forall x, x ∈ l -> (0 <= x)%Qc) -> (0 <= sum_Qc l)%Qc.
Proof.
  induction l as [|x l IH]; intros H; simpl; [apply Qcle_refl|].
  replace 0%Qc with (0 + 0)%Qc by ring.
  apply Qcplus_le_compat; [apply H; left|apply IH; intros y Hy; apply H; right; exact Hy].
Qed.

Lemma sum_Qc_app (l1 l2 : list Qc) : sum_Qc (l1 ++ l2) = (sum_Qc l1 + sum_Qc l2)%Qc.
Proof. induction l1 as [|x l1 IH]; simpl; [ring|rewrite IH; ring]. Qed.

Lemma sum_Qc_flat_map {A B} (f : B -> Qc) (g : A -> list B) (xs : list A) :
  sum_Qc (map f (flat_map g xs)) = sum_Qc (map (fun x => sum_Qc (map f (g x))) xs).
Proof.
  induction xs as [|x xs IH]; simpl; [reflexivity|].
  rewrite map_app, sum_Qc_app, IH. reflexivity.
Qed.

(** Dividing the factor by a larger positive number gives less. *)
Lemma factor_div_antitone (x y : Qc) :
  (0 < x)%Qc -> (x < y)%Qc -> (FITNESS_FACTOR / y < FITNESS_FACTOR / x)%Qc.
Proof.
  intros Hx Hxy.
  assert (Hy : (0 < y)%Qc) by (eapply Qclt_trans; eassumption).
  assert (Hxn : x <> 0%Qc) by (apply not_eq_sym, Qclt_not_eq, Hx).
  assert (Hyn : y <> 0%Qc) by (apply not_eq_sym, Qclt_not_eq, Hy).
  assert (Hix : (0 < / x)%Qc) by (apply Qcinv_pos; exact Hx).
  assert (Hiy : (0 < / y)%Qc) by (apply Qcinv_pos; exact Hy).
  assert (Hinv : (/ y < / x)%Qc).
  { replace (/ y)%Qc with (x * (/ x * / y))%Qc by (field; split; assumption).
    replace (/ x)%Qc with (y * (/ x * / y))%Qc at 2 by (field; split; assumption).
    apply Qcmult_lt_compat_r; [|exact Hxy].
    replace 0%Qc with (0 * / y)%Qc by ring.
    apply Qcmult_lt_compat_r; assumption. }
  unfold Qcdiv. rewrite !(Qcmult_comm FITNESS_FACTOR).
  apply Qcmult_lt_compat_r; [apply FITNESS_FACTOR_pos|exact Hinv].
Qed.

(** ** The loops of [_similarity] over the grid *)

(** [self[i][j]] is the piece at position [i * columns + j] of the list,
    and an [IndexError] when the list ends before that position. *)
Lemma cell_id_of_position (ps : list Piece) (cols i j : Z) :
  0 <= i -> 0 <= j < cols ->
  cell_id_of ps cols i j =
    match ps !! Z.to_nat (i * cols + j) with
    | Some p => Ok (id p)
    | None => Raise IndexError
    end.
Proof.
  intros Hi Hj. unfold cell_id_of.
  set (n := Z.of_nat (length ps)).
  assert (Ha : 0 <= i * cols) by nia.
  replace ((i + 1) * cols) with (i * cols + cols) by ring.
  set (a := i * cols) in *.
  set (row := py_slice ps a (a + cols)).
  assert (Hrow : row = take (Z.to_nat (Z.min (a + cols) n - Z.min a n))
                            (drop (Z.to_nat (Z.min a n)) ps)).
  { subst row. unfold py_slice, py_slice_bound. fold n.
    destruct (Z.ltb_spec a 0) as [?|_]; [lia|].
    destruct (Z.ltb_spec (a + cols) 0) as [?|_]; [lia|]. reflexivity. }
  assert (Hlen : Z.of_nat (length row) = Z.min (a + cols) n - Z.min a n).
  { rewrite Hrow, length_take, length_drop. subst n. lia. }
  destruct (Z.lt_ge_cases (a + j) n) as [Hin|Hout].
  - destruct (py_index_inside row j) as (p & Hp & ->); [lia|].
    rewrite Hrow in Hp. rewrite lookup_take_lt in Hp by lia.
    rewrite lookup_drop in Hp.
    replace (Z.to_nat (Z.min a n) + Z.to_nat j)%nat with (Z.to_nat (a + j)) in Hp by lia.
    rewrite Hp. reflexivity.
  - rewrite py_index_beyond by lia.
    rewrite (lookup_ge_None_2 ps (Z.to_nat (a + j))) by (subst n; lia).
    reflexivity.
Qed.

Lemma fold_result_ext {S : Type} (f g : Z -> S -> Result S) (xs : list Z) :
  (forall x acc, x ∈ xs -> f x acc = g x acc) ->
  forall acc, fold_result xs f acc = fold_result xs g acc.
Proof.
  induction xs as [|x xs IH]; intros H acc; simpl; [reflexivity|].
  rewrite (H x acc) by left.
  destruct (g x acc) as [acc'|e]; simpl; [|reflexivity].
  apply IH. intros y acc'' Hy. apply H. right. exact Hy.
Qed.

(** A loop that adds a term for each element adds their sum. *)
Lemma fold_result_sum (g : Z -> Qc) (xs : list Z) : forall acc : Qc,
  fold_result xs (fun x acc => Ok (acc + g x)%Qc) acc = Ok (acc + sum_Qc (map g xs))%Qc.
Proof.
  induction xs as [|x xs IH]; intros acc; simpl.
  - f_equal. ring.
  - rewrite IH. f_equal. ring.
Qed.

(** In a grid that the list fills, a step of the loops adds the
    dissimilarity of the pieces at the two positions. *)
Lemma pair_step_inside (ps : list Piece) (cols : Z) (orientation : string)
    (i j i' j' : Z) (acc : Qc) :
  0 <= i -> 0 <= j < cols -> 0 <= i' -> 0 <= j' < cols ->
  i * cols + j < Z.of_nat (length ps) ->
  i' * cols + j' < Z.of_nat (length ps) ->
  pair_step ps cols orientation i j i' j' acc =
    Ok (acc + pair_dissimilarity ps orientation
                ((i * cols + j)%Z, (i' * cols + j')%Z))%Qc.
Proof.
  intros Hi Hj Hi' Hj' Hin Hin'. unfold pair_step, pair_dissimilarity.
  rewrite !cell_id_of_position by assumption. cbn [fst snd].
  destruct (lookup_lt_is_Some_2 ps (Z.to_nat (i * cols + j))) as [p ->]; [nia|].
  destruct (lookup_lt_is_Some_2 ps (Z.to_nat (i' * cols + j'))) as [q ->]; [nia|].
  reflexivity.
Qed.

Lemma similarity_of_grid (ps : list Piece) (rws cols : Z) :
  0 <= rws -> 0 <= cols -> Z.of_nat (length ps) = rws * cols ->
  similarity_of ps rws cols =
    let fitness_value := (1 / FITNESS_FACTOR + total_dissimilarity ps rws cols)%Qc in
    if decide (fitness_value = 0%Qc) then Raise ZeroDivisionError
    else Ok (FITNESS_FACTOR / fitness_value)%Qc.
Proof.
  intros Hr Hc Hlen. unfold similarity_of.
  rewrite (fold_result_ext _
    (fun i acc => Ok (acc + sum_Qc (map (fun j =>
       pair_dissimilarity ps "LR" ((i * cols + j)%Z, (i * cols + j + 1)%Z))
       (py_range (cols - 1))))%Qc)).
  2:{ intros i acc Hi. apply elem_of_py_range in Hi.
      rewrite <- fold_result_sum. apply fold_result_ext.
      intros j acc' Hj. apply elem_of_py_range in Hj.
      rewrite pair_step_inside by nia.
      replace (i * cols + (j + 1)) with (i * cols + j + 1) by ring. reflexivity. }
  rewrite fold_result_sum. cbn [rbind].
  rewrite (fold_result_ext _
    (fun i acc => Ok (acc + sum_Qc (map (fun j =>
       pair_dissimilarity ps "TD" ((i * cols + j)%Z, ((i + 1) * cols + j)%Z))
       (py_range cols)))%Qc)).
  2:{ intros i acc Hi. apply elem_of_py_range in Hi.
      rewrite <- fold_result_sum. apply fold_result_ext.
      intros j acc' Hj. apply elem_of_py_range in Hj.
      rewrite pair_step_inside by nia. reflexivity. }
  rewrite fold_result_sum. cbn [rbind]. cbv zeta.
  unfold total_dissimilarity, adjacent_h, adjacent_v.
  rewrite !sum_Qc_flat_map.
  assert (E : forall (A : Type) (f : Z * Z -> Qc) (g : A -> Z * Z) (l : list A),
             map f (map g l) = map (fun x => f (g x)) l)
    by (intros; apply map_map).
  erewrite (map_ext (fun x => sum_Qc (map _ (map _ _)))); [|intros; rewrite E; reflexivity].
  erewrite (map_ext (fun x => sum_Qc (map _ (map _ (py_range cols)))));
    [|intros; rewrite E; reflexivity].
  rewrite Qcplus_assoc. reflexivity.
Qed.

(** ** The adjacent pairs of the grid *)

Lemma elem_of_adjacent_h (rws cols a b : Z) :
  0 <= rws -> 0 <= cols ->
  (a, b) ∈ adjacent_h rws cols <->
  0 <= a /\ b = a + 1 /\ b < rws * cols /\ a / cols = b / cols.
Proof.
  intros Hr Hc. unfold adjacent_h. rewrite list_elem_of_In, in_flat_map. split.
  - intros (r & Hrin & Hin). apply list_elem_of_In, elem_of_py_range in Hrin.
    apply in_map_iff in Hin as (c & Heq & Hcin).
    apply list_elem_of_In, elem_of_py_range in Hcin.
    injection Heq as <- <-.
    assert (E1 : (r * cols + c) / cols = r)
      by (rewrite Z.add_comm, Z.div_add by lia; rewrite Z.div_small; lia).
    assert (E2 : (r * cols + c + 1) / cols = r).
    { replace (r * cols + c + 1) with ((c + 1) + r * cols) by ring.
      rewrite Z.div_add by lia. rewrite Z.div_small; lia. }
    rewrite E1, E2. repeat split; nia.
  - intros (Ha & -> & Hb & Hrow).
    assert (Hcp : 0 < cols) by nia.
    pose proof (Z.div_mod a cols ltac:(lia)) as Hdm.
    pose proof (Z.mod_pos_bound a cols Hcp) as Hm.
    pose proof (Z.div_pos a cols Ha Hcp) as Hd.
    assert (Hlast : a mod cols < cols - 1).
    { destruct (Z.lt_ge_cases (a mod cols) (cols - 1)) as [?|Hge]; [assumption|].
      exfalso.
      assert (E : a / cols + 1 = (a + 1) / cols)
        by (apply (Z.div_unique_pos (a + 1) cols (a / cols + 1) 0); nia).
      lia. }
    exists (a / cols). split.
    + apply list_elem_of_In, elem_of_py_range. nia.
    + apply in_map_iff. exists (a mod cols). split.
      * f_equal; nia.
      * apply list_elem_of_In, elem_of_py_range. lia.
Qed.

Lemma elem_of_adjacent_v (rws cols a b : Z) :
  0 <= rws -> 0 <= cols ->
  (a, b) ∈ adjacent_v rws cols <->
  0 <= a /\ b = a + cols /\ b < rws * cols.
Proof.
  intros Hr Hc. unfold adjacent_v. rewrite list_elem_of_In, in_flat_map. split.
  - intros (r & Hrin & Hin). apply list_elem_of_In, elem_of_py_range in Hrin.
    apply in_map_iff in Hin as (c & Heq & Hcin).
    apply list_elem_of_In, elem_of_py_range in Hcin.
    injection Heq as <- <-. repeat split; nia.
  - intros (Ha & -> & Hb).
    assert (Hcp : 0 < cols) by nia.
    pose proof (Z.div_mod a cols ltac:(lia)) as Hdm.
    pose proof (Z.mod_pos_bound a cols Hcp) as Hm.
    pose proof (Z.div_pos a cols Ha Hcp) as Hd.
    exists (a / cols). split.
    + apply list_elem_of_In, elem_of_py_range. nia.
    + apply in_map_iff. exists (a mod cols). split.
      * f_equal; nia.
      * apply list_elem_of_In, elem_of_py_range. lia.
Qed.

(** Each adjacent pair occurs once in the lists. *)
Lemma NoDup_adjacent_h (rws cols : Z) : NoDup (adjacent_h rws cols).
Proof.
  unfold adjacent_h.
  change (NoDup (py_range rws ≫=
    (fun r => (fun c => (r * cols + c, r * cols + c + 1)) <$> py_range (cols - 1)))).
  apply NoDup_bind; [| |apply NoDup_py_range].
  - intros r1 r2 [a b] _ _ H1 H2.
    apply list_elem_of_fmap in H1 as (c1 & [= -> ->] & Hc1).
    apply list_elem_of_fmap in H2 as (c2 & [= E _] & Hc2).
    apply elem_of_py_range in Hc1, Hc2.
    destruct (Z.lt_trichotomy r1 r2) as [?|[?|?]]; [nia|assumption|nia].
  - intros r _. apply NoDup_fmap_2_strong; [|apply NoDup_py_range].
    intros c1 c2 _ _ [= E _]. lia.
Qed.

Lemma NoDup_adjacent_v (rws cols : Z) : NoDup (adjacent_v rws cols).
Proof.
  unfold adjacent_v.
  change (NoDup (py_range (rws - 1) ≫=
    (fun r => (fun c => (r * cols + c, (r + 1) * cols + c)) <$> py_range cols))).
  apply NoDup_bind; [| |apply NoDup_py_range].
  - intros r1 r2 [a b] _ _ H1 H2.
    apply list_elem_of_fmap in H1 as (c1 & [= -> ->] & Hc1).
    apply list_elem_of_fmap in H2 as (c2 & [= E _] & Hc2).
    apply elem_of_py_range in Hc1, Hc2.
    destruct (Z.lt_trichotomy r1 r2) as [?|[?|?]]; [nia|assumption|nia].
  - intros r _. apply NoDup_fmap_2_strong; [|apply NoDup_py_range].
    intros c1 c2 _ _ [= E _]. lia.
Qed.

Lemma total_dissimilarity_nonneg (ps : list Piece) (rws cols : Z) :
  (forall ids orientation, (0 <= get_dissimilarity ids orientation)%Qc) ->
  (0 <= total_dissimilarity ps rws cols)%Qc.
Proof.
  intros Hd.
  assert (Hp : forall orientation ab, (0 <= pair_dissimilarity ps orientation ab)%Qc).
  { intros orientation ab. unfold pair_dissimilarity.
    destruct (ps !! _); [|apply Qcle_refl].
    destruct (ps !! _); [apply Hd|apply Qcle_refl]. }
  unfold total_dissimilarity. apply Qcplus_nonneg_nonneg; apply sum_Qc_nonneg;
    intros x Hx; apply list_elem_of_fmap in Hx as (ab & -> & _); apply Hp.
Qed.

(** With a table of non-negative entries the Similarity fitness of a
    filled grid is defined. *)
Lemma similarity_of_defined (ps : list Piece) (rws cols : Z) :
  (forall ids orientation, (0 <= get_dissimilarity ids orientation)%Qc) ->
  0 <= rws -> 0 <= cols -> Z.of_nat (length ps) = rws * cols ->
  (0 < 1 / FITNESS_FACTOR + total_dissimilarity ps rws cols)%Qc /\
  similarity_of ps rws cols =
    Ok (FITNESS_FACTOR / (1 / FITNESS_FACTOR + total_dissimilarity ps rws cols))%Qc.
Proof.
  intros Hd Hr Hc Hlen.
  assert (Hpos : (0 < 1 / FITNESS_FACTOR + total_dissimilarity ps rws cols)%Qc).
  { apply Qcplus_pos_nonneg; [apply inv_FITNESS_FACTOR_pos|].
    apply total_dissimilarity_nonneg, Hd. }
  split; [exact Hpos|].
  rewrite similarity_of_grid by assumption. cbv zeta.
  destruct (decide _) as [E|_]; [|reflexivity].
  rewrite E in Hpos. exfalso. exact (Qclt_not_le _ _ Hpos (Qcle_refl _)).
Qed.

(** Over exact rationals, the Similarity fitness of an Individual is the
    factor 1000 times the inverse of: the constant 1/1000 plus the
    dissimilarities summed over the horizontally adjacent pairs and the
    vertically adjacent pairs of the grid. With a table of non-negative
    entries the value is defined also when the sum is zero, and of two
    arrangements the one with the lower sum has the strictly higher
    value. Python computes in doubles, where the last does not hold; see
    below. *)
Lemma similarity_over_rationals
    (w1 w2 : World) (self1 self2 : loc) (o1 o2 : Individual) (ps1 ps2 : list Piece) :
  grid_individual w1 self1 o1 ps1 -> _fitness o1 = None -> fitness_type o1 = Similarity ->
  grid_individual w2 self2 o2 ps2 -> _fitness o2 = None -> fitness_type o2 = Similarity ->
  (forall ids orientation, (0 <= get_dissimilarity ids orientation)%Qc) ->
  let t1 := total_dissimilarity ps1 (rows o1) (columns o1) in
  let t2 := total_dissimilarity ps2 (rows o2) (columns o2) in
  exists v1 v2 : Qc,
    fst (fitness self1 w1) = Ok v1 /\
    fst (fitness self2 w2) = Ok v2 /\
    v1 = (FITNESS_FACTOR * / (1 / FITNESS_FACTOR + t1))%Qc /\
    v2 = (FITNESS_FACTOR * / (1 / FITNESS_FACTOR + t2))%Qc /\
    (0 < 1 / FITNESS_FACTOR + t1)%Qc /\
    ((t1 < t2)%Qc -> (v2 < v1)%Qc) /\
    (forall a b : Z, (a, b) ∈ adjacent_h (rows o1) (columns o1) <->
       0 <= a /\ b = a + 1 /\ b < rows o1 * columns o1 /\
       a / columns o1 = b / columns o1) /\
    (forall a b : Z, (a, b) ∈ adjacent_v (rows o1) (columns o1) <->
       0 <= a /\ b = a + columns o1 /\ b < rows o1 * columns o1) /\
    NoDup (adjacent_h (rows o1) (columns o1)) /\
    NoDup (adjacent_v (rows o1) (columns o1)).
Proof.
  intros (Ho1 & Hl1 & Hr1 & Hc1 & Hlen1) Hn1 Hft1
         (Ho2 & Hl2 & Hr2 & Hc2 & Hlen2) Hn2 Hft2 Hd t1 t2.
  destruct (similarity_of_defined ps1 (rows o1) (columns o1) Hd Hr1 Hc1 Hlen1)
    as [Hp1 Hs1].
  destruct (similarity_of_defined ps2 (rows o2) (columns o2) Hd Hr2 Hc2 Hlen2)
    as [Hp2 Hs2].
  fold t1 in Hp1, Hs1. fold t2 in Hp2, Hs2.
  exists (FITNESS_FACTOR / (1 / FITNESS_FACTOR + t1))%Qc,
         (FITNESS_FACTOR / (1 / FITNESS_FACTOR + t2))%Qc.
  rewrite (fitness_first_run w1 self1 o1 ps1 Ho1 Hl1 Hn1), Hft1.
  rewrite (fitness_first_run w2 self2 o2 ps2 Ho2 Hl2 Hn2), Hft2.
  cbv zeta. cbn [fitness_value_of]. rewrite Hs1, Hs2. cbn [fst].
  split; [reflexivity|]. split; [reflexivity|].
  split; [reflexivity|]. split; [reflexivity|].
  split; [exact Hp1|]. split; [|split; [|split; [|split]]].
  - intros Hlt. apply factor_div_antitone; [exact Hp1|].
    apply Qcplus_lt_mono_l. exact Hlt.
  - intros a b. apply elem_of_adjacent_h; assumption.
  - intros a b. apply elem_of_adjacent_v; assumption.
  - apply NoDup_adjacent_h.
  - apply NoDup_adjacent_v.
Qed.

(** ** [_similarity] over the arithmetic it is run with *)

Lemma map_flat_map {A B C} (f : B -> C) (g : A -> list B) (l : list A) :
  map f (flat_map g l) = flat_map (fun x => map f (g x)) l.
Proof.
  induction l as [|x l IH]; simpl; [reflexivity|]. rewrite map_app, IH. reflexivity.
Qed.

Lemma id_at_lookup (ps : list Piece) (k : nat) (p : Piece) :
  ps !! k = Some p -> id_at ps (Z.of_nat k) = id p.
Proof. intros H. unfold id_at. rewrite Nat2Z.id, H. reflexivity. Qed.

Section ArithmeticFacts.
Context {R : Type}.
Variables add div : R -> R -> R.
Variable is_zero : R -> bool.
Variables one factor : R.
Variable table : Z * Z -> string -> R.

Lemma pair_step_in_run (w : World) (self : loc) (o : Individual) (ps : list Piece)
    (orientation : string) (i j i' j' : Z) (acc : R) :
  objs w !! self = Some o -> lists w !! pieces o = Some ps ->
  (a <~ cell_id self i j ;;
   b <~ cell_id self i' j' ;;
   ret (add acc (table (a, b) orientation))) w =
  (pair_step_in add table ps (columns o) orientation i j i' j' acc, w).
Proof.
  intros Ho Hl. unfold bind, pair_step_in, rbind.
  rewrite (cell_id_run w self o ps i j Ho Hl).
  destruct (cell_id_of ps (columns o) i j) as [a|e]; [|reflexivity].
  rewrite (cell_id_run w self o ps i' j' Ho Hl).
  destruct (cell_id_of ps (columns o) i' j') as [b|e]; reflexivity.
Qed.

(** The method returns what the loops over the list give, and enters one
    call in the record. *)
Lemma similarity_in_run (w : World) (self : loc) (o : Individual) (ps : list Piece) :
  objs w !! self = Some o -> lists w !! pieces o = Some ps ->
  _similarity_in add div is_zero one factor table self w =
    (similarity_in add div is_zero one factor table ps (rows o) (columns o),
     logged w [CallSimilarity self]).
Proof.
  intros Ho Hl. unfold _similarity_in.
  unfold bind at 1. unfold log. fold (logged w [CallSimilarity self]).
  set (w1 := logged w [CallSimilarity self]).
  assert (Ho1 : objs w1 !! self = Some o) by exact Ho.
  assert (Hl1 : lists w1 !! pieces o = Some ps) by exact Hl.
  unfold bind at 1. unfold read_obj at 1. rewrite Ho1.
  unfold similarity_in.
  unfold bind at 1. unfold lift at 1.
  destruct (true_div div is_zero one factor) as [v0|e]; [|reflexivity].
  cbn [rbind]. unfold bind at 1.
  rewrite (for_each_pure w1 _
    (fun i acc => fold_result (py_range (columns o - 1))
       (fun j acc => pair_step_in add table ps (columns o) "LR" i j i (j + 1) acc) acc)).
  2:{ intros i acc. apply for_each_pure. intros j acc'.
      apply (pair_step_in_run w1 self o ps "LR" i j i (j + 1) acc' Ho1 Hl1). }
  destruct (fold_result (py_range (rows o)) _ _) as [v1|e]; [|reflexivity].
  cbn [rbind]. unfold bind at 1.
  rewrite (for_each_pure w1 _
    (fun i acc => fold_result (py_range (columns o))
       (fun j acc => pair_step_in add table ps (columns o) "TD" i j (i + 1) j acc) acc)).
  2:{ intros i acc. apply for_each_pure. intros j acc'.
      apply (pair_step_in_run w1 self o ps "TD" i j (i + 1) j acc' Ho1 Hl1). }
  destruct (fold_result (py_range (rows o - 1)) _ _) as [v2|e]; reflexivity.
Qed.

(** A loop that adds a term for each element adds the terms from the left,
    in the order of the elements. *)
Lemma fold_result_add (g : Z -> R) (xs : list Z) : forall acc : R,
  fold_result xs (fun x acc => Ok (add acc (g x))) acc
    = Ok (fold_left add (map g xs) acc).
Proof.
  induction xs as [|x xs IH]; intros acc; simpl; [reflexivity|]. apply IH.
Qed.

Lemma fold_result_add_rows (g : Z -> list R) (xs : list Z) : forall acc : R,
  fold_result xs (fun x acc => Ok (fold_left add (g x) acc)) acc
    = Ok (fold_left add (flat_map g xs) acc).
Proof.
  induction xs as [|x xs IH]; intros acc; simpl; [reflexivity|].
  rewrite fold_left_app. apply IH.
Qed.

Lemma pair_step_in_inside (ps : list Piece) (cols : Z) (orientation : string)
    (i j i' j' : Z) (acc : R) :
  0 <= i -> 0 <= j < cols -> 0 <= i' -> 0 <= j' < cols ->
  i * cols + j < Z.of_nat (length ps) ->
  i' * cols + j' < Z.of_nat (length ps) ->
  pair_step_in add table ps cols orientation i j i' j' acc =
    Ok (add acc (pair_entry table ps orientation
                   ((i * cols + j)%Z, (i' * cols + j')%Z))).
Proof.
  intros Hi Hj Hi' Hj' Hin Hin'. unfold pair_step_in, pair_entry, id_at.
  rewrite !cell_id_of_position by assumption. cbn [fst snd].
  destruct (lookup_lt_is_Some_2 ps (Z.to_nat (i * cols + j))) as [p ->]; [nia|].
  destruct (lookup_lt_is_Some_2 ps (Z.to_nat (i' * cols + j'))) as [q ->]; [nia|].
  reflexivity.
Qed.

(** In a grid that the list fills, the loops start from [one / factor] and
    add the entries of the adjacent pairs one after the other; the result
    is [factor] divided by what they reach. *)
Lemma similarity_in_grid (ps : list Piece) (rws cols : Z) :
  0 <= rws -> 0 <= cols -> Z.of_nat (length ps) = rws * cols ->
  similarity_in add div is_zero one factor table ps rws cols =
    rbind (true_div div is_zero one factor) (fun start =>
    true_div div is_zero factor
      (fold_left add (pair_entries table ps rws cols) start)).
Proof.
  intros Hr Hc Hlen. unfold similarity_in.
  destruct (true_div div is_zero one factor) as [start|e]; [|reflexivity].
  cbn [rbind].
  rewrite (fold_result_ext _
    (fun i acc => Ok (fold_left add (map (fun j =>
       pair_entry table ps "LR" ((i * cols + j)%Z, (i * cols + j + 1)%Z))
       (py_range (cols - 1))) acc))).
  2:{ intros i acc Hi. apply elem_of_py_range in Hi.
      rewrite <- fold_result_add. apply fold_result_ext.
      intros j acc' Hj. apply elem_of_py_range in Hj.
      rewrite pair_step_in_inside by nia.
      replace (i * cols + (j + 1)) with (i * cols + j + 1) by ring. reflexivity. }
  rewrite (fold_result_add_rows (fun i => map (fun j =>
       pair_entry table ps "LR" ((i * cols + j)%Z, (i * cols + j + 1)%Z))
       (py_range (cols - 1)))).
  cbn [rbind].
  rewrite (fold_result_ext _
    (fun i acc => Ok (fold_left add (map (fun j =>
       pair_entry table ps "TD" ((i * cols + j)%Z, ((i + 1) * cols + j)%Z))
       (py_range cols)) acc))).
  2:{ intros i acc Hi. apply elem_of_py_range in Hi.
      rewrite <- fold_result_add. apply fold_result_ext.
      intros j acc' Hj. apply elem_of_py_range in Hj.
      rewrite pair_step_in_inside by nia. reflexivity. }
  rewrite (fold_result_add_rows (fun i => map (fun j =>
       pair_entry table ps "TD" ((i * cols + j)%Z, ((i + 1) * cols + j)%Z))
       (py_range cols))).
  cbn [rbind].
  rewrite <- fold_left_app.
  unfold pair_entries, adjacent_h, adjacent_v.
  rewrite !map_flat_map.
  assert (E : forall (A : Type) (f : Z * Z -> R) (g : A -> Z * Z) (l : list A),
             map f (map g l) = map (fun x => f (g x)) l)
    by (intros; apply map_map).
  erewrite (flat_map_ext (fun r => map _ (map _ (py_range (cols - 1)))));
    [|intros; rewrite E; reflexivity].
  erewrite (flat_map_ext (fun r => map _ (map _ (py_range cols))));
    [|intros; rewrite E; reflexivity].
  reflexivity.
Qed.
End ArithmeticFacts.

(** The class as embedded above is the method over exact rationals. *)
Lemma similarity_is_exact_instance (self : loc) (w : World) :
  _similarity self w =
    _similarity_in Qcplus Qcdiv (fun x => bool_decide (x = 0%Qc)) 1%Qc FITNESS_FACTOR
      get_dissimilarity self w.
Proof.
  unfold _similarity, _similarity_in, true_div.
  rewrite bool_decide_eq_false_2 by discriminate.
  unfold bind, lift, log, read_obj. cbn [objs].
  destruct (objs w !! self) as [o|]; [|reflexivity].
  destruct (for_each (py_range (rows o)) _ _ _) as [[v1|e] w1]; [|reflexivity].
  destruct (for_each (py_range (rows o - 1)) _ _ _) as [[v2|e] w2]; [|reflexivity].
  unfold raise, ret.
  destruct (decide (v2 = 0%Qc)) as [E|E].
  - rewrite bool_decide_eq_true_2 by exact E. reflexivity.
  - rewrite bool_decide_eq_false_2 by exact E. reflexivity.
Qed.

(** Adding zeros to a double that adding zero leaves as it is. *)
Lemma f64_add_zeros (l : list float) (x : float) :
  (forall y, y ∈ l -> y = 0%float) -> (x + 0)%float = x ->
  fold_left PrimFloat.add l x = x.
Proof.
  intros Hl Hx. induction l as [|y l IH]; simpl; [reflexivity|].
  rewrite (Hl y) by left. rewrite Hx. apply IH.
  intros z Hz. apply Hl. right. exact Hz.
Qed.

(** C1, as the code has it. The Similarity fitness of an Individual is
    what [_similarity] returns, and Python computes it in doubles: the
    sum starts from the double [1 / 1000] and the table entries of the
    adjacent pairs are added to it one after the other, each sum rounded,
    first for the horizontally adjacent pairs (positions [a], [a + 1] of
    one row), row by row, then for the vertically adjacent pairs
    (positions [a], [a + columns]); the value is [1000] divided by the sum
    reached, rounded, and [ZeroDivisionError] when that sum is zero. Each
    adjacent pair gives one term. With a table of zeros the value is
    defined: it is 1000000.0. The embedding of the class over exact
    rationals is the same method with exact operations. *)
Theorem C1_similarity_fitness_in_doubles
    (table : Z * Z -> string -> float)
    (w : World) (self : loc) (o : Individual) (ps : list Piece) :
  grid_individual w self o ps -> _fitness o = None -> fitness_type o = Similarity ->
  let sum :=
    fold_left PrimFloat.add (pair_entries table ps (rows o) (columns o))
      (1 / 1000)%float in
  fst (fitness self w) = fst (_similarity self w) /\
  _similarity self w =
    _similarity_in Qcplus Qcdiv (fun x => bool_decide (x = 0%Qc)) 1%Qc FITNESS_FACTOR
      get_dissimilarity self w /\
  fst (_similarity_f64 table self w) =
    (if PrimFloat.eqb sum 0 then Raise ZeroDivisionError
     else Ok (1000 / sum)%float) /\
  ((forall ids orientation, table ids orientation = 0%float) ->
   fst (_similarity_f64 table self w) = Ok 1000000%float) /\
  (forall (k : nat) (p : Piece), ps !! k = Some p -> id_at ps (Z.of_nat k) = id p) /\
  (forall a b : Z, (a, b) ∈ adjacent_h (rows o) (columns o) <->
     0 <= a /\ b = a + 1 /\ b < rows o * columns o /\
     a / columns o = b / columns o) /\
  (forall a b : Z, (a, b) ∈ adjacent_v (rows o) (columns o) <->
     0 <= a /\ b = a + columns o /\ b < rows o * columns o) /\
  NoDup (adjacent_h (rows o) (columns o)) /\
  NoDup (adjacent_v (rows o) (columns o)).
Proof.
  intros (Ho & Hl & Hr & Hc & Hlen) Hn Hft sum.
  assert (Hrun : fst (_similarity_f64 table self w) =
            (if PrimFloat.eqb sum 0 then Raise ZeroDivisionError
             else Ok (1000 / sum)%float)).
  { unfold _similarity_f64. rewrite (similarity_in_run _ _ _ _ _ _ w self o ps Ho Hl).
    cbn [fst]. rewrite similarity_in_grid by assumption. reflexivity. }
  split; [|split; [|split; [|split; [|split; [|split; [|split; [|split]]]]]]].
  - rewrite (fitness_first_run w self o ps Ho Hl Hn), Hft.
    rewrite (similarity_run w self o ps Ho Hl). cbv zeta. cbn [fitness_value_of].
    destruct (similarity_of ps (rows o) (columns o)); reflexivity.
  - apply similarity_is_exact_instance.
  - exact Hrun.
  - intros Hzero. rewrite Hrun. subst sum.
    rewrite f64_add_zeros; [vm_compute; reflexivity| |vm_compute; reflexivity].
    intros y Hy. unfold pair_entries in Hy.
    apply elem_of_app in Hy as [Hy|Hy];
      apply list_elem_of_fmap in Hy as (ab & -> & _); apply Hzero.
  - apply id_at_lookup.
  - intros a b. apply elem_of_adjacent_h; assumption.
  - intros a b. apply elem_of_adjacent_v; assumption.
  - apply NoDup_adjacent_h.
  - apply NoDup_adjacent_v.
Qed.

(** ** Methods that only read *)

Lemma read_only_ret {A} (a : A) : read_only (ret a).
Proof. intros w. reflexivity. Qed.

Lemma read_only_raise {A} (e : Exn) : read_only (raise (A := A) e).
Proof. intros w. reflexivity. Qed.

Lemma read_only_lift {A} (r : Result A) : read_only (lift r).
Proof. intros w. reflexivity. Qed.

Lemma read_only_read_obj (self : loc) : read_only (read_obj self).
Proof. intros w. unfold read_obj. destruct (objs w !! self); reflexivity. Qed.

Lemma read_only_read_list (l : loc) : read_only (read_list l).
Proof. intros w. unfold read_list. destruct (lists w !! l); reflexivity. Qed.

Lemma read_only_mapping_get (o : Individual) (i : Z) : read_only (mapping_get o i).
Proof. intros w. unfold mapping_get. destruct (_ !! i); reflexivity. Qed.

Lemma read_only_bind {A B} (m : M A) (k : A -> M B) :
  read_only m -> (forall a, read_only (k a)) -> read_only (bind m k).
Proof.
  intros Hm Hk w. unfold bind. specialize (Hm w).
  destruct (m w) as [[a|e] w']; simpl in Hm; subst w'; [apply Hk|reflexivity].
Qed.

Lemma read_only_if {A} (b : bool) (m1 m2 : M A) :
  read_only m1 -> read_only m2 -> read_only (if b then m1 else m2).
Proof. destruct b; trivial. Qed.

Create HintDb readonly.
Hint Resolve read_only_ret read_only_raise read_only_lift read_only_read_obj
  read_only_read_list read_only_mapping_get read_only_if : readonly.

Ltac read_only_steps :=
  repeat first
    [ apply read_only_bind; [|intros ?]
    | apply read_only_if
    | solve [auto with readonly] ].

Lemma read_only_getitem (self : loc) (key : Z) : read_only (__getitem__ self key).
Proof. unfold __getitem__. read_only_steps. Qed.

Lemma read_only_to_image (self : loc) : read_only (to_image self).
Proof. unfold to_image. read_only_steps. Qed.

Lemma read_only_piece_size (self : loc) : read_only (piece_size self).
Proof. unfold piece_size. read_only_steps. Qed.

Lemma read_only_piece_by_id (self : loc) (i : Z) : read_only (piece_by_id self i).
Proof. unfold piece_by_id. read_only_steps. Qed.

Lemma read_only_piece_id_at (o : Individual) (i : Z) : read_only (piece_id_at o i).
Proof. unfold piece_id_at. read_only_steps. Qed.

Lemma read_only_edge (self : loc) (i : Z) (orientation : string) :
  read_only (edge self i orientation).
Proof.
  pose proof read_only_piece_id_at.
  unfold edge. read_only_steps.
Qed.

(** The constructor leaves every Individual of the store as it was. *)
Lemma init_keeps_objs (w : World) (l : loc) (r c : Z) (shuffle : bool)
    (ft : FitnessArg) (self : loc) (o : Individual) :
  objs w !! self = Some o ->
  objs (snd (__init__ l r c shuffle ft w)) !! self = Some o.
Proof.
  intros Ho.
  assert (Hne : fresh (dom (objs w)) <> self).
  { intros <-. rewrite fresh_obj_loc in Ho. discriminate. }
  destruct (lists w !! l) as [ps|] eqn:Hl.
  - rewrite (init_run w l ps r c shuffle ft Hl). cbv zeta.
    destruct (in_FitnessType ft) as [[|]|e]; cbn [snd objs];
      rewrite ?lookup_insert_ne by assumption; assumption.
  - unfold __init__, bind, read_list. rewrite Hl. assumption.
Qed.

(** The object a construction returns is new, and its fitness is not yet
    computed. *)
Lemma init_new_object (w : World) (l : loc) (r c : Z) (shuffle : bool)
    (ft : FitnessArg) (self : loc) (o : Individual) :
  fst (__init__ l r c shuffle ft w) = Ok self ->
  objs (snd (__init__ l r c shuffle ft w)) !! self = Some o ->
  objs w !! self = None /\ _fitness o = None.
Proof.
  destruct (lists w !! l) as [ps|] eqn:Hl.
  - rewrite (init_run w l ps r c shuffle ft Hl). cbv zeta.
    destruct (in_FitnessType ft) as [[|]|e]; [|discriminate..].
    cbn [fst snd objs].
    intros [= <-]. rewrite lookup_insert_eq. intros [= <-].
    split; [apply fresh_obj_loc|reflexivity].
  - unfold __init__, bind, read_list. rewrite Hl. discriminate.
Qed.

Lemma fitness_reads_cached (w : World) (self : loc) (o : Individual) (v : Qc) :
  objs w !! self = Some o -> _fitness o = Some v ->
  forall n, fitness_reads n self w = (Ok (repeat v n), w).
Proof.
  intros Ho Hv. induction n as [|n IH]; simpl; [reflexivity|].
  unfold bind. rewrite (fitness_cached_run w self o v Ho Hv), IH. reflexivity.
Qed.

(** With a table of non-negative entries the fitness of an Individual of
    the data model is defined, whatever its fitness type. *)
Lemma fitness_value_of_defined (ft : FitnessType) (ps : list Piece) (rws cols : Z) :
  (forall ids orientation, (0 <= get_dissimilarity ids orientation)%Qc) ->
  0 <= rws -> 0 <= cols -> Z.of_nat (length ps) = rws * cols ->
  exists v, fitness_value_of ft ps rws cols = Ok v.
Proof.
  intros Hd Hr Hc Hlen.
  destruct (similarity_of_defined ps rws cols Hd Hr Hc Hlen) as [_ Hs].
  unfold fitness_value_of. rewrite Hs. cbn [rbind].
  destruct ft; eexists; reflexivity.
Qed.

(** No computation is entered twice for one value. *)
Lemma NoDup_calls_of (ft : FitnessArg) (self : loc) (ps : list Piece) (rws cols : Z) :
  NoDup (calls_of ft self ps rws cols).
Proof.
  unfold calls_of. destruct ft as [[| |]| |value]; [| |destruct (is_ok _)| |];
    repeat (apply NoDup_cons_2;
            [first [apply not_elem_of_nil
                   |apply not_elem_of_cons; split;
                    [discriminate|apply not_elem_of_nil]]|]);
    apply NoDup_nil_2.
Qed.

(** C5. The fitness of an Individual, its fitness type a member of
    [FitnessType], is computed at the first read of the
    property and cached. The first read enters each computation the
    fitness type needs once and stores the value; every later read
    returns that value and leaves the store, the call record included, as
    it is. The other methods leave the store as it is, and constructing
    an Individual leaves the existing ones as they are: the new object is
    another one, with no value cached. *)
Theorem C5_fitness_is_computed_once_and_cached
    (w : World) (self : loc) (o : Individual) (ps : list Piece)
    (member : FitnessType) :
  grid_individual w self o ps -> _fitness o = None ->
  fitness_type o = member ->
  (forall ids orientation, (0 <= get_dissimilarity ids orientation)%Qc) ->
  exists (v : Qc) (w1 : World) (o1 : Individual),
    fitness self w = (Ok v, w1) /\
    trace w1 = trace w ++ calls_of (fitness_type o) self ps (rows o) (columns o) /\
    NoDup (calls_of (fitness_type o) self ps (rows o) (columns o)) /\
    objs w1 !! self = Some o1 /\ _fitness o1 = Some v /\
    (forall n : nat, fitness_reads n self w1 = (Ok (repeat v n), w1)) /\
    (forall key, snd (__getitem__ self key w1) = w1) /\
    snd (to_image self w1) = w1 /\
    snd (piece_size self w1) = w1 /\
    (forall i, snd (piece_by_id self i w1) = w1) /\
    (forall i orientation, snd (edge self i orientation w1) = w1) /\
    (forall l r c shuffle ft,
       objs (snd (__init__ l r c shuffle ft w1)) !! self = Some o1) /\
    (forall l r c shuffle ft self' o',
       fst (__init__ l r c shuffle ft w1) = Ok self' ->
       objs (snd (__init__ l r c shuffle ft w1)) !! self' = Some o' ->
       self' <> self /\ _fitness o' = None).
Proof.
  intros (Ho & Hl & Hr & Hc & Hlen) Hn Hmember Hd.
  destruct (fitness_value_of_defined member ps (rows o) (columns o)
              Hd Hr Hc Hlen) as (v & Hv).
  rewrite <- Hmember in Hv.
  pose proof (fitness_first_run w self o ps Ho Hl Hn) as Hrun.
  cbv zeta in Hrun. rewrite Hv in Hrun.
  set (calls := calls_of (fitness_type o) self ps (rows o) (columns o)) in *.
  set (w1 := cached (logged w calls) self o v) in *.
  set (o1 := mkIndividual (pieces o) (rows o) (columns o) (Some v)
               (fitness_type o) (_piece_mapping o)).
  assert (Ho1 : objs w1 !! self = Some o1) by apply lookup_insert_eq.
  exists v, w1, o1.
  split; [exact Hrun|]. split; [reflexivity|].
  split; [apply NoDup_calls_of|]. split; [exact Ho1|]. split; [reflexivity|].
  split; [apply (fitness_reads_cached w1 self o1 v Ho1); reflexivity|].
  split; [intros key; apply read_only_getitem|].
  split; [apply read_only_to_image|].
  split; [apply read_only_piece_size|].
  split; [intros i; apply read_only_piece_by_id|].
  split; [intros i orientation; apply read_only_edge|].
  split; [intros l r c shuffle ft; apply init_keeps_objs, Ho1|].
  intros l r c shuffle ft self' o' Hs Ho'.
  destruct (init_new_object w1 l r c shuffle ft self' o' Hs Ho') as [Hnew Hnone].
  split; [|exact Hnone]. intros ->. rewrite Ho1 in Hnew. discriminate.
Qed.

(** C8. The Semantic fitness of an Individual is the score the external
    scorer gives to the image assembled from its pieces, in their order,
    with the shape of the grid, times the constant 10. *)
Theorem C8_semantic_fitness_is_scaled_score
    (w : World) (self : loc) (o : Individual) (ps : list Piece) :
  objs w !! self = Some o -> lists w !! pieces o = Some ps ->
  _fitness o = None -> fitness_type o = Semantic ->
  fst (fitness self w) =
    Ok (compute_sem_consistency
          (assemble_image (map image ps) (rows o) (columns o)) (rows o, columns o)
        * Q2Qc (10 # 1))%Qc /\
  fst (to_image self w) = Ok (assemble_image (map image ps) (rows o) (columns o)).
Proof.
  intros Ho Hl Hn Hft.
  rewrite (fitness_first_run w self o ps Ho Hl Hn), Hft.
  rewrite (to_image_run w self o ps Ho Hl). split; reflexivity.
Qed.

(** C4. The fitness of type Sum of an Individual is the result of its
    [_similarity] plus the result of its [_semantic_consistency], the two
    methods that compute the Similarity and the Semantic value, each run
    on the arrangement of that Individual; when [_similarity] raises, Sum
    raises the same. The two results are the values that Individuals of
    type Similarity and of type Semantic over the same arrangement (the
    same pieces in the same order, the same grid shape) have as their
    fitness. *)
Theorem C4_sum_is_similarity_plus_semantic
    (w1 w2 w3 : World) (s1 s2 s3 : loc) (o1 o2 o3 : Individual) (ps : list Piece) :
  objs w1 !! s1 = Some o1 -> lists w1 !! pieces o1 = Some ps ->
  objs w2 !! s2 = Some o2 -> lists w2 !! pieces o2 = Some ps ->
  objs w3 !! s3 = Some o3 -> lists w3 !! pieces o3 = Some ps ->
  rows o1 = rows o3 -> columns o1 = columns o3 ->
  rows o2 = rows o3 -> columns o2 = columns o3 ->
  _fitness o1 = None -> _fitness o2 = None -> _fitness o3 = None ->
  fitness_type o1 = Similarity -> fitness_type o2 = Semantic ->
  fitness_type o3 = Sum ->
  fst (fitness s3 w3) =
    rbind (fst (_similarity s3 w3)) (fun a =>
    rbind (fst (_semantic_consistency s3 w3)) (fun b => Ok (a + b)%Qc)) /\
  fst (_similarity s3 w3) = similarity_of ps (rows o3) (columns o3) /\
  fst (_semantic_consistency s3 w3) =
    Ok (compute_sem_consistency
          (assemble_image (map image ps) (rows o3) (columns o3)) (rows o3, columns o3)
        * Q2Qc (10 # 1))%Qc /\
  fst (fitness s1 w1) = fst (_similarity s3 w3) /\
  fst (fitness s2 w2) = fst (_semantic_consistency s3 w3) /\
  fst (fitness s3 w3) =
    rbind (fst (fitness s1 w1)) (fun a =>
    rbind (fst (fitness s2 w2)) (fun b => Ok (a + b)%Qc)).
Proof.
  intros Ho1 Hl1 Ho2 Hl2 Ho3 Hl3 Hr1 Hc1 Hr2 Hc2 Hn1 Hn2 Hn3 Hf1 Hf2 Hf3.
  rewrite (fitness_first_run w1 s1 o1 ps Ho1 Hl1 Hn1), Hf1.
  rewrite (fitness_first_run w2 s2 o2 ps Ho2 Hl2 Hn2), Hf2.
  rewrite (fitness_first_run w3 s3 o3 ps Ho3 Hl3 Hn3), Hf3.
  rewrite (similarity_run w3 s3 o3 ps Ho3 Hl3).
  rewrite (semantic_run w3 s3 o3 ps Ho3 Hl3).
  cbv zeta. cbn [fitness_value_of fst]. rewrite Hr1, Hc1, Hr2, Hc2.
  unfold semantic_of.
  destruct (similarity_of ps (rows o3) (columns o3)) as [a|e];
    repeat split; reflexivity.
Qed.


(** ** The neighbour lookup *)

Lemma piece_id_at_run (w : World) (o : Individual) (ps : list Piece) (i : Z) :
  lists w !! pieces o = Some ps -> 0 <= i < Z.of_nat (length ps) ->
  exists q, ps !! Z.to_nat i = Some q /\ piece_id_at o i w = (Ok (id q), w).
Proof.
  intros Hl Hi. destruct (py_index_inside ps i Hi) as (q & Hq & Hpy).
  exists q. split; [exact Hq|].
  unfold piece_id_at, bind, read_list, lift, ret. rewrite Hl, Hpy. reflexivity.
Qed.

(** C3. In an Individual of the data model with pairwise distinct ids,
    [edge] asked for the piece at position [k] and a side returns the id
    of the piece at the adjacent position of the row-major layout
    ([k - columns] above, [k + 1] right, [k + columns] below, [k - 1]
    left), which is a position of the grid, and returns [None] exactly
    when [k] is on the boundary of that side: in the first row, the last
    column, the last row, the first column. *)
Theorem C3_edge_returns_grid_neighbour
    (w : World) (self : loc) (o : Individual) (ps : list Piece)
    (k : nat) (p : Piece) (s : Side) :
  grid_individual w self o ps -> mapping_built o ps -> NoDup (map id ps) ->
  ps !! k = Some p ->
  let adjacent := adjacent_position (columns o) s (Z.of_nat k) in
  if on_boundary (rows o) (columns o) s (Z.of_nat k)
  then edge self (id p) (side_code s) w = (Ok None, w)
  else 0 <= adjacent < rows o * columns o /\
       exists q, ps !! Z.to_nat adjacent = Some q /\
                 edge self (id p) (side_code s) w = (Ok (Some (id q)), w).
Proof.
  intros (Ho & Hl & Hr & Hc & Hlen) Hm Hnd Hk adjacent.
  pose proof (lookup_lt_Some _ _ _ Hk) as Hlt.
  set (K := Z.of_nat k) in *.
  assert (HK : 0 <= K < rows o * columns o) by (subst K; lia).
  assert (Hcp : 0 < columns o) by nia.
  pose proof (Z.div_mod K (columns o) ltac:(lia)) as Hdm.
  pose proof (Z.mod_pos_bound K (columns o) Hcp) as Hmod.
  pose proof (Z.div_pos K (columns o) ltac:(lia) Hcp) as Hdiv.
  assert (Hrow : K / columns o < rows o)
    by (apply Z.div_lt_upper_bound; [exact Hcp|nia]).
  assert (Hget : mapping_get o (id p) w = (Ok k, w)).
  { unfold mapping_get. rewrite Hm, (build_mapping_lookup ps 0 ∅ k p Hnd Hk).
    reflexivity. }
  assert (Hnz : (columns o =? 0) = false) by (apply Z.eqb_neq; lia).
  unfold edge, bind, read_obj. rewrite Ho. cbn beta iota. rewrite Hget. fold K.
  unfold py_mod, lift, ret. rewrite Hnz.
  destruct s; subst adjacent; cbn [side_code on_boundary adjacent_position String.eqb
    Ascii.eqb Bool.eqb andb].
  - (* top *)
    destruct (Z.eqb_spec (K / columns o) 0) as [E|E];
      destruct (Z.leb_spec (columns o) K) as [L|L]; try nia.
    + reflexivity.
    + split; [nia|].
      destruct (piece_id_at_run w o ps (K - columns o) Hl) as (q & Hq & ->); [nia|].
      exists q. split; [exact Hq|reflexivity].
  - (* right *)
    destruct (Z.eqb_spec (K mod columns o) (columns o - 1)) as [E|E];
      destruct (Z.ltb_spec (K mod columns o) (columns o - 1)) as [L|L]; try lia.
    + reflexivity.
    + split; [nia|].
      destruct (piece_id_at_run w o ps (K + 1) Hl) as (q & Hq & ->); [nia|].
      exists q. split; [exact Hq|reflexivity].
  - (* bottom *)
    destruct (Z.eqb_spec (K / columns o) (rows o - 1)) as [E|E];
      destruct (Z.ltb_spec K ((rows o - 1) * columns o)) as [L|L]; try nia.
    + reflexivity.
    + split; [nia|].
      destruct (piece_id_at_run w o ps (K + columns o) Hl) as (q & Hq & ->); [nia|].
      exists q. split; [exact Hq|reflexivity].
  - (* left *)
    destruct (Z.eqb_spec (K mod columns o) 0) as [E|E];
      destruct (Z.ltb_spec 0 (K mod columns o)) as [L|L]; try lia.
    + reflexivity.
    + split; [nia|].
      destruct (piece_id_at_run w o ps (K - 1) Hl) as (q & Hq & ->); [nia|].
      exists q. split; [exact Hq|reflexivity].
Qed.

(** ** Further facts about the constructor *)

(** The shuffle of the class is the shuffle of any list, on pieces. *)
Lemma shuffle_from_steps (i : nat) : forall (x : list Piece) (state : nat),
  shuffle_from i x state = shuffle_steps random_interval i x state.
Proof.
  induction i as [|i IH]; intros x state; cbn [shuffle_from shuffle_steps];
    [reflexivity|].
  destruct (random_interval state (S i)) as [j state']. apply IH.
Qed.

Lemma shuffle_steps_Permutation {A} (i : nat) : forall (x : list A) (state : nat),
  fst (shuffle_steps random_interval i x state) ≡ₚ x.
Proof.
  induction i as [|i IH]; intros x state; cbn [shuffle_steps]; [reflexivity|].
  destruct (random_interval state (S i)) as [j state'].
  rewrite IH. apply swap_Permutation.
Qed.

(** X1. Construction without shuffling keeps the order of the pieces and
    leaves the generator as it is; so does construction with shuffling
    from a sequence of one piece or none, for which the loop of the shuffle
    has no iteration. Either way the new Individual has the fitness type
    given and no fitness cached. *)
Theorem X1_constructor_keeps_order_without_shuffle (w : World) (l : loc) (ps : list Piece)
    (r c : Z) (shuffle : bool) (ft : FitnessType) :
  lists w !! l = Some ps ->
  exists (self : loc) (o : Individual) (ps' : list Piece),
    let w' := snd (__init__ l r c shuffle (Member ft) w) in
    fst (__init__ l r c shuffle (Member ft) w) = Ok self /\
    objs w' !! self = Some o /\
    lists w' !! pieces o = Some ps' /\
    fitness_type o = ft /\ _fitness o = None /\
    trace w' = trace w /\
    (shuffle = false -> ps' = ps /\ rng w' = rng w) /\
    ((length ps <= 1)%nat -> ps' = ps /\ rng w' = rng w).
Proof.
  intros Hl. rewrite (init_member w l ps r c shuffle ft Hl).
  eexists _, _, _. cbv zeta. cbn [fst snd lists objs rng trace].
  split; [reflexivity|]. split; [apply lookup_insert_eq|].
  cbn [pieces fitness_type _fitness]. split; [apply lookup_insert_eq|].
  split; [reflexivity|]. split; [reflexivity|]. split; [reflexivity|]. split.
  - intros ->. split; reflexivity.
  - intros Hshort. unfold arranged, shuffle_list.
    replace (length ps - 1)%nat with 0%nat by lia. cbn [shuffle_from fst snd].
    destruct shuffle; split; reflexivity.
Qed.

(** ** Further facts about the id-to-index mapping *)

(** Of several pieces with one id the mapping keeps the last. *)
Lemma build_mapping_last (ps : list Piece) :
  forall (n : nat) (m : gmap Z nat) (k : nat) (p : Piece),
  ps !! k = Some p ->
  (forall j q, (k < j)%nat -> ps !! j = Some q -> id q <> id p) ->
  build_mapping n ps m !! id p = Some (n + k)%nat.
Proof.
  induction ps as [|q ps IH]; intros n m k p Hk Hlast; [discriminate|].
  destruct k as [|k]; simpl in *.
  - injection Hk as ->. rewrite build_mapping_other.
    + rewrite lookup_insert_eq. f_equal. lia.
    + intros Hin. apply list_elem_of_fmap in Hin as (q & Hq & Hin).
      apply list_elem_of_lookup in Hin as (j & Hj).
      apply (Hlast (S j) q); [lia|exact Hj|congruence].
  - rewrite (IH _ _ k p Hk).
    + f_equal. lia.
    + intros j q' Hlt Hj. apply (Hlast (S j) q'); [lia|exact Hj].
Qed.

(** X2. [piece_by_id] in any Individual, distinct ids or not. For an id that
    some piece carries it returns the last piece of the list with that id;
    for an id that no piece carries it raises [KeyError]. The store is left
    as it is. *)
Theorem X2_piece_by_id_last_or_KeyError (w : World) (self : loc) (o : Individual)
    (ps : list Piece) (identifier : Z) :
  objs w !! self = Some o -> lists w !! pieces o = Some ps ->
  mapping_built o ps ->
  (identifier ∉ map id ps ->
     piece_by_id self identifier w = (Raise KeyError, w)) /\
  (identifier ∈ map id ps ->
     exists (k : nat) (p : Piece),
       ps !! k = Some p /\ id p = identifier /\
       (forall j q, (k < j)%nat -> ps !! j = Some q -> id q <> identifier) /\
       piece_by_id self identifier w = (Ok p, w)).
Proof.
  intros Ho Hl Hm. split.
  - intros Hnot. unfold piece_by_id, bind, read_obj, mapping_get, raise.
    rewrite Ho, Hm, build_mapping_other by exact Hnot.
    rewrite lookup_empty. reflexivity.
  - intros Hin.
    assert (Hex : exists k p, ps !! k = Some p /\ id p = identifier /\
              forall j q, (k < j)%nat -> ps !! j = Some q -> id q <> identifier).
    { clear Hl Hm Ho. induction ps as [|q ps IH]; [inversion Hin|].
      destruct (decide (identifier ∈ map id ps)) as [Hlater|Hlater].
      - destruct (IH Hlater) as (k & p & Hk & Hp & Hlast).
        exists (S k), p. split; [exact Hk|]. split; [exact Hp|].
        intros [|j] q' Hlt Hj; [lia|]. apply (Hlast j q'); [lia|exact Hj].
      - simpl in Hin. apply elem_of_cons in Hin as [E|Hin]; [|contradiction].
        exists 0%nat, q. split; [reflexivity|]. split; [congruence|].
        intros [|j] q' Hlt Hj; [lia|]. simpl in Hj. intros E'.
        apply Hlater. apply list_elem_of_fmap. exists q'. split; [congruence|].
        apply list_elem_of_lookup. exists j. exact Hj. }
    destruct Hex as (k & p & Hk & Hp & Hlast). exists k, p.
    split; [exact Hk|]. split; [exact Hp|]. split; [exact Hlast|].
    unfold piece_by_id, bind, read_obj, mapping_get, read_list, lift, ret.
    rewrite Ho, Hm. rewrite <- Hp.
    rewrite (build_mapping_last ps 0 ∅ k p Hk) by (rewrite Hp; exact Hlast).
    simpl. rewrite Hl, (py_index_nat ps k p Hk). reflexivity.
Qed.

(** ** Further facts about the neighbour lookup *)

(** The result of [edge] as a function of the position of the piece. *)
Lemma edge_at_position (w : World) (self : loc) (o : Individual) (ps : list Piece)
    (k : nat) (p : Piece) (s : Side) :
  grid_individual w self o ps -> mapping_built o ps -> NoDup (map id ps) ->
  ps !! k = Some p ->
  edge self (id p) (side_code s) w =
    (Ok (if on_boundary (rows o) (columns o) s (Z.of_nat k) then None
         else id <$> ps !! Z.to_nat (adjacent_position (columns o) s (Z.of_nat k))),
     w) /\
  (on_boundary (rows o) (columns o) s (Z.of_nat k) = false ->
   0 <= adjacent_position (columns o) s (Z.of_nat k) < rows o * columns o).
Proof.
  intros (Ho & Hl & Hr & Hc & Hlen) Hm Hnd Hk.
  pose proof (lookup_lt_Some _ _ _ Hk) as Hlt.
  set (K := Z.of_nat k) in *.
  assert (HK : 0 <= K < rows o * columns o) by (subst K; lia).
  assert (Hcp : 0 < columns o) by nia.
  pose proof (Z.div_mod K (columns o) ltac:(lia)) as Hdm.
  pose proof (Z.mod_pos_bound K (columns o) Hcp) as Hmod.
  pose proof (Z.div_pos K (columns o) ltac:(lia) Hcp) as Hdiv.
  assert (Hrow : K / columns o < rows o)
    by (apply Z.div_lt_upper_bound; [exact Hcp|nia]).
  assert (Hget : mapping_get o (id p) w = (Ok k, w)).
  { unfold mapping_get. rewrite Hm, (build_mapping_lookup ps 0 ∅ k p Hnd Hk).
    reflexivity. }
  assert (Hnz : (columns o =? 0) = false) by (apply Z.eqb_neq; lia).
  assert (Hat : forall i, 0 <= i < rows o * columns o ->
            piece_id_at o i w = (Ok (default 0 (id <$> ps !! Z.to_nat i)), w) /\
            is_Some (ps !! Z.to_nat i)).
  { intros i Hi. destruct (piece_id_at_run w o ps i Hl) as (q & Hq & ->); [lia|].
    rewrite Hq. split; [reflexivity|eexists; reflexivity]. }
  unfold edge, bind, read_obj. rewrite Ho. cbn beta iota. rewrite Hget. fold K.
  unfold py_mod, lift, ret. rewrite Hnz.
  destruct s; cbn [side_code on_boundary adjacent_position String.eqb
    Ascii.eqb Bool.eqb andb].
  - destruct (Z.eqb_spec (K / columns o) 0) as [E|E];
      destruct (Z.leb_spec (columns o) K) as [L|L]; try nia.
    + split; [reflexivity|discriminate].
    + destruct (Hat (K - columns o)) as [-> [q ->]]; [nia|].
      split; [reflexivity|intros _; nia].
  - destruct (Z.eqb_spec (K mod columns o) (columns o - 1)) as [E|E];
      destruct (Z.ltb_spec (K mod columns o) (columns o - 1)) as [L|L]; try lia.
    + split; [reflexivity|discriminate].
    + destruct (Hat (K + 1)) as [-> [q ->]]; [nia|].
      split; [reflexivity|intros _; nia].
  - destruct (Z.eqb_spec (K / columns o) (rows o - 1)) as [E|E];
      destruct (Z.ltb_spec K ((rows o - 1) * columns o)) as [L|L]; try nia.
    + split; [reflexivity|discriminate].
    + destruct (Hat (K + columns o)) as [-> [q ->]]; [nia|].
      split; [reflexivity|intros _; nia].
  - destruct (Z.eqb_spec (K mod columns o) 0) as [E|E];
      destruct (Z.ltb_spec 0 (K mod columns o)) as [L|L]; try lia.
    + split; [reflexivity|discriminate].
    + destruct (Hat (K - 1)) as [-> [q ->]]; [nia|].
      split; [reflexivity|intros _; nia].
Qed.

(** Stepping to the adjacent position and back. *)
Lemma adjacent_position_back (rws cols : Z) (s : Side) (k : Z) :
  0 < cols -> 0 <= k < rws * cols ->
  on_boundary rws cols s k = false ->
  on_boundary rws cols (opposite s) (adjacent_position cols s k) = false /\
  adjacent_position cols (opposite s) (adjacent_position cols s k) = k.
Proof.
  intros Hc Hk Hb.
  pose proof (Z.div_mod k cols ltac:(lia)) as Hdm.
  pose proof (Z.mod_pos_bound k cols Hc) as Hmod.
  pose proof (Z.div_pos k cols ltac:(lia) Hc) as Hdiv.
  assert (Hrow : k / cols < rws) by (apply Z.div_lt_upper_bound; [exact Hc|nia]).
  destruct s; cbn [on_boundary opposite adjacent_position] in *;
    (split; [|lia]); apply Z.eqb_neq in Hb; apply Z.eqb_neq.
  - (* above: its row is the row before *)
    assert (E : k / cols - 1 = (k - cols) / cols)
      by (apply (Z.div_unique_pos (k - cols) cols (k / cols - 1) (k mod cols)); nia).
    lia.
  - (* right: its column is the next *)
    assert (E : k mod cols + 1 = (k + 1) mod cols)
      by (apply (Z.mod_unique_pos (k + 1) cols (k / cols) (k mod cols + 1)); nia).
    lia.
  - (* below: its row is the next *)
    assert (E : k / cols + 1 = (k + cols) / cols)
      by (apply (Z.div_unique_pos (k + cols) cols (k / cols + 1) (k mod cols)); nia).
    lia.
  - (* left: its column is the one before *)
    assert (E : k mod cols - 1 = (k - 1) mod cols)
      by (apply (Z.mod_unique_pos (k - 1) cols (k / cols) (k mod cols - 1)); nia).
    lia.
Qed.

(** X3. Neighbours are mutual. When [edge] gives [n] as the neighbour of a
    piece on one side, it gives that piece as the neighbour of [n] on the
    opposite side. *)
Theorem X3_edge_neighbours_are_mutual (w : World) (self : loc) (o : Individual)
    (ps : list Piece) (k : nat) (p : Piece) (s : Side) (n : Z) :
  grid_individual w self o ps -> mapping_built o ps -> NoDup (map id ps) ->
  ps !! k = Some p ->
  edge self (id p) (side_code s) w = (Ok (Some n), w) ->
  edge self n (side_code (opposite s)) w = (Ok (Some (id p)), w).
Proof.
  intros Hg Hm Hnd Hk He.
  destruct (edge_at_position w self o ps k p s Hg Hm Hnd Hk) as [Hrun Hin].
  rewrite Hrun in He.
  destruct (on_boundary (rows o) (columns o) s (Z.of_nat k)) eqn:Hb;
    [discriminate|].
  specialize (Hin eq_refl).
  set (k' := adjacent_position (columns o) s (Z.of_nat k)) in *.
  destruct (ps !! Z.to_nat k') as [q|] eqn:Hq; [|discriminate].
  injection He as <-.
  pose proof (lookup_lt_Some _ _ _ Hk) as Hlt.
  destruct Hg as (Ho & Hl & Hr & Hc & Hlen).
  assert (Hcp : 0 < columns o) by nia.
  destruct (adjacent_position_back (rows o) (columns o) s (Z.of_nat k) Hcp
              ltac:(lia) Hb) as [Hb' Hback].
  fold k' in Hb', Hback.
  destruct (edge_at_position w self o ps (Z.to_nat k') q (opposite s)
              (conj Ho (conj Hl (conj Hr (conj Hc Hlen)))) Hm Hnd Hq) as [Hrun' _].
  rewrite Z2Nat.id in Hrun' by lia.
  rewrite Hrun', Hb', Hback, Nat2Z.id, Hk. reflexivity.
Qed.

(** X4. [edge] with an orientation other than ["T"], ["R"], ["D"], ["L"]
    returns [None] for every id of the mapping, whatever the grid. *)
Theorem X4_edge_unknown_orientation (w : World) (self : loc) (o : Individual)
    (piece_id : Z) (index : nat) (orientation : string) :
  objs w !! self = Some o ->
  _piece_mapping o !! piece_id = Some index ->
  orientation <> "T"%string -> orientation <> "R"%string ->
  orientation <> "D"%string -> orientation <> "L"%string ->
  edge self piece_id orientation w = (Ok None, w).
Proof.
  intros Ho Hi HT HR HD HL.
  apply String.eqb_neq in HT, HR, HD, HL.
  unfold edge, bind, read_obj, mapping_get, ret. rewrite Ho, Hi.
  cbn beta iota. rewrite HT, HR, HD, HL. reflexivity.
Qed.

(** X5. [edge] asked for an id that is not in the mapping raises [KeyError],
    whatever the orientation; so it does for every id that no piece of the
    Individual carries. *)
Theorem X5_edge_unknown_id (w : World) (self : loc) (o : Individual)
    (ps : list Piece) (piece_id : Z) (orientation : string) :
  objs w !! self = Some o -> mapping_built o ps ->
  piece_id ∉ map id ps ->
  edge self piece_id orientation w = (Raise KeyError, w).
Proof.
  intros Ho Hm Hnot. unfold edge, bind, read_obj, mapping_get, raise.
  rewrite Ho, Hm, build_mapping_other by exact Hnot.
  rewrite lookup_empty. reflexivity.
Qed.

(** X6. In an Individual with zero columns, [edge] to the right or to the
    left raises [ZeroDivisionError]: the column of the piece is taken
    modulo [columns]. *)
Theorem X6_edge_zero_columns (w : World) (self : loc) (o : Individual)
    (piece_id : Z) (index : nat) (s : Side) :
  objs w !! self = Some o ->
  _piece_mapping o !! piece_id = Some index ->
  columns o = 0 -> s = Right \/ s = Left ->
  edge self piece_id (side_code s) w = (Raise ZeroDivisionError, w).
Proof.
  intros Ho Hi Hc Hs.
  unfold edge, bind, read_obj, mapping_get, ret, lift, py_mod.
  rewrite Ho, Hi. cbn beta iota. rewrite Hc.
  destruct Hs as [-> | ->]; cbn [side_code String.eqb Ascii.eqb Bool.eqb andb].
  - reflexivity.
  - destruct (Z.ltb_spec (Z.of_nat index) ((rows o - 1) * 0)) as [L|L]; [lia|].
    reflexivity.
Qed.

(** ** Further facts about the rows of the grid *)

Lemma py_slice_row (ps : list Piece) (cols i : Z) :
  0 <= i -> 0 <= cols -> (i + 1) * cols <= Z.of_nat (length ps) ->
  py_slice ps (i * cols) ((i + 1) * cols) =
    take (Z.to_nat cols) (drop (Z.to_nat (i * cols)) ps).
Proof.
  intros Hi Hc Hlen. unfold py_slice, py_slice_bound.
  assert (0 <= i * cols) by nia.
  destruct (Z.ltb_spec (i * cols) 0) as [?|_]; [lia|].
  destruct (Z.ltb_spec ((i + 1) * cols) 0) as [?|_]; [nia|].
  rewrite !Z.min_l by nia. f_equal. nia.
Qed.

Lemma rows_concat (ps : list Piece) (cols : Z) (n : nat) :
  0 <= cols ->
  concat (map (fun i => take (Z.to_nat cols) (drop (Z.to_nat (i * cols)) ps))
              (py_range (Z.of_nat n)))
  = take (n * Z.to_nat cols) ps.
Proof.
  intros Hc. unfold py_range. rewrite Nat2Z.id.
  induction n as [|n IH]; [reflexivity|].
  rewrite seq_S, !map_app, concat_app, IH. cbn [map concat Nat.add].
  rewrite app_nil_r.
  replace (Z.to_nat (Z.of_nat n * cols)) with (n * Z.to_nat cols)%nat by nia.
  rewrite take_take_drop. f_equal. lia.
Qed.

(** X7. The rows of an Individual of the data model. Row [i] of the grid,
    read with [self[i]], has [columns] pieces, its piece [j] is the piece at
    position [i * columns + j] of the list, and the rows in order, one
    after the other, are the list. A key from [rows] on gives the empty
    list, no error. *)
Theorem X7_getitem_rows (w : World) (self : loc) (o : Individual) (ps : list Piece) :
  grid_individual w self o ps ->
  exists row : Z -> list Piece,
    (forall i, __getitem__ self i w = (Ok (row i), w)) /\
    (forall i, 0 <= i < rows o -> Z.of_nat (length (row i)) = columns o) /\
    (forall i j, 0 <= i < rows o -> 0 <= j < columns o ->
       row i !! Z.to_nat j = ps !! Z.to_nat (i * columns o + j)) /\
    concat (map row (py_range (rows o))) = ps /\
    (forall i, rows o <= i -> row i = []).
Proof.
  intros (Ho & Hl & Hr & Hc & Hlen).
  exists (fun i => py_slice ps (i * columns o) ((i + 1) * columns o)).
  split; [intros i; apply (getitem_run w self o ps i Ho Hl)|].
  split; [|split; [|split]].
  - intros i Hi. rewrite py_slice_row by nia.
    rewrite length_take, length_drop. nia.
  - intros i j Hi Hj. rewrite py_slice_row by nia.
    rewrite lookup_take_lt by lia. rewrite lookup_drop. f_equal. nia.
  - rewrite (map_ext_in _
      (fun i => take (Z.to_nat (columns o)) (drop (Z.to_nat (i * columns o)) ps))).
    + rewrite <- (Z2Nat.id (rows o)) at 1 by exact Hr.
      rewrite rows_concat by exact Hc. apply take_ge. nia.
    + intros i Hi. apply list_elem_of_In, elem_of_py_range in Hi.
      apply py_slice_row; nia.
  - intros i Hi. unfold py_slice, py_slice_bound.
    assert (0 <= i * columns o) by nia.
    destruct (Z.ltb_spec (i * columns o) 0) as [?|_]; [lia|].
    destruct (Z.ltb_spec ((i + 1) * columns o) 0) as [?|_]; [nia|].
    rewrite drop_ge by nia. apply take_nil.
Qed.

(** X8. [piece_size] raises [IndexError] for an Individual without pieces;
    when the pieces all have one size, as in a run, it returns that size
    whatever their order. *)
Theorem X8_piece_size (w : World) (self : loc) (o : Individual) (ps : list Piece)
    (s : Z) :
  objs w !! self = Some o -> lists w !! pieces o = Some ps ->
  (forall p, p ∈ ps -> size p = s) ->
  piece_size self w = (if decide (ps = []) then Raise IndexError else Ok s, w).
Proof.
  intros Ho Hl Hs. unfold piece_size, bind, read_obj, read_list, lift, ret.
  rewrite Ho, Hl. destruct ps as [|p ps]; [reflexivity|].
  destruct (decide _) as [?|_]; [discriminate|].
  pose proof (py_index_nat (p :: ps) 0 p eq_refl) as Hi.
  change (Z.of_nat 0) with 0 in Hi.
  rewrite Hi, (Hs p) by left. reflexivity.
Qed.

(** ** Further facts about the fitness: failures *)

(** X9. A read of [fitness] whose computation raises caches nothing. The
    exception comes out, the Individuals and lists of the store are as
    before, and the next read runs the computation again and raises the
    same. With a fitness type of the enumeration at least one computation
    is entered at each read. *)
Theorem X9_fitness_failure_is_not_cached (w : World) (self : loc) (o : Individual)
    (ps : list Piece) (e : Exn) :
  objs w !! self = Some o -> lists w !! pieces o = Some ps -> _fitness o = None ->
  fitness_value_of (fitness_type o) ps (rows o) (columns o) = Raise e ->
  let calls := calls_of (fitness_type o) self ps (rows o) (columns o) in
  exists w1 w2 : World,
    fitness self w = (Raise e, w1) /\
    objs w1 = objs w /\ lists w1 = lists w /\
    trace w1 = trace w ++ calls /\
    fitness self w1 = (Raise e, w2) /\
    objs w2 = objs w /\
    trace w2 = trace w ++ calls ++ calls /\
    (forall member : FitnessType, fitness_type o = member -> calls <> []).
Proof.
  intros Ho Hl Hn He calls.
  pose proof (fitness_first_run w self o ps Ho Hl Hn) as H1.
  cbv zeta in H1. rewrite He in H1. fold calls in H1.
  pose proof (fitness_first_run (logged w calls) self o ps Ho Hl Hn) as H2.
  cbv zeta in H2. rewrite He in H2. fold calls in H2.
  exists (logged w calls), (logged (logged w calls) calls).
  split; [exact H1|]. split; [reflexivity|]. split; [reflexivity|].
  split; [reflexivity|]. split; [exact H2|]. split; [reflexivity|].
  split; [cbn [logged trace]; rewrite app_assoc; reflexivity|].
  intros member Hmember. subst calls. rewrite Hmember. unfold calls_of.
  destruct member; [| |destruct (is_ok _)]; discriminate.
Qed.

Lemma fold_result_raises {S : Type} (f : Z -> S -> Result S) (e : Exn)
    (xs : list Z) (x0 : Z) :
  x0 ∈ xs ->
  (forall acc, f x0 acc = Raise e) ->
  (forall x acc, x ∈ xs -> f x acc = Raise e \/ exists acc', f x acc = Ok acc') ->
  forall acc, fold_result xs f acc = Raise e.
Proof.
  induction xs as [|x xs IH]; intros Hin H0 Hall acc; [inversion Hin|].
  simpl. apply elem_of_cons in Hin as [<-|Hin].
  - rewrite H0. reflexivity.
  - destruct (Hall x acc ltac:(left)) as [->|[acc' ->]]; [reflexivity|].
    simpl. apply IH; [exact Hin|exact H0|].
    intros y a Hy. apply Hall. right. exact Hy.
Qed.

Lemma fold_result_total {S : Type} (f : Z -> S -> Result S) (e : Exn) (xs : list Z) :
  (forall x acc, x ∈ xs -> f x acc = Raise e \/ exists acc', f x acc = Ok acc') ->
  forall acc, fold_result xs f acc = Raise e \/ exists acc', fold_result xs f acc = Ok acc'.
Proof.
  induction xs as [|x xs IH]; intros Hall acc; [right; eexists; reflexivity|].
  simpl. destruct (Hall x acc ltac:(left)) as [->|[acc' ->]]; [left; reflexivity|].
  simpl. apply IH. intros y a Hy. apply Hall. right. exact Hy.
Qed.

(** A step of the loops either adds a term or raises [IndexError]; it
    raises when one of its two positions is beyond the end of the list. *)
Lemma pair_step_cases (ps : list Piece) (cols : Z) (orientation : string)
    (i j i' j' : Z) (acc : Qc) :
  0 <= i -> 0 <= j < cols -> 0 <= i' -> 0 <= j' < cols ->
  (pair_step ps cols orientation i j i' j' acc = Raise IndexError \/
   exists acc', pair_step ps cols orientation i j i' j' acc = Ok acc') /\
  (Z.of_nat (length ps) <= i * cols + j \/ Z.of_nat (length ps) <= i' * cols + j' ->
   pair_step ps cols orientation i j i' j' acc = Raise IndexError).
Proof.
  intros Hi Hj Hi' Hj'. unfold pair_step.
  rewrite !cell_id_of_position by assumption.
  destruct (ps !! Z.to_nat (i * cols + j)) as [p|] eqn:Hp;
    destruct (ps !! Z.to_nat (i' * cols + j')) as [q|] eqn:Hq; cbn [rbind].
  - split; [right; eexists; reflexivity|].
    apply lookup_lt_Some in Hp, Hq. intros [?|?]; nia.
  - split; [left; reflexivity|reflexivity].
  - split; [left; reflexivity|reflexivity].
  - split; [left; reflexivity|reflexivity].
Qed.

(** With a column to the right of another, the loop over the rows raises
    when the list ends before the grid does. *)
Lemma horizontal_loop_short (ps : list Piece) (rws cols : Z) (acc : Qc) :
  0 < rws -> 2 <= cols -> Z.of_nat (length ps) < rws * cols ->
  fold_result (py_range rws) (fun i acc =>
    fold_result (py_range (cols - 1)) (fun j acc =>
      pair_step ps cols "LR" i j i (j + 1) acc) acc) acc = Raise IndexError.
Proof.
  intros Hr Hc Hlen. set (n := Z.of_nat (length ps)) in *.
  assert (Hn : 0 <= n) by (subst n; lia).
  pose proof (Z.div_mod n cols ltac:(lia)) as Hdm.
  pose proof (Z.mod_pos_bound n cols ltac:(lia)) as Hmod.
  pose proof (Z.div_pos n cols Hn ltac:(lia)) as Hdiv.
  assert (Hrow : n / cols < rws) by (apply Z.div_lt_upper_bound; nia).
  apply (fold_result_raises _ _ _ (n / cols)).
  - apply elem_of_py_range. lia.
  - intros a. apply (fold_result_raises _ _ _ (Z.min (n mod cols) (cols - 2))).
    + apply elem_of_py_range. lia.
    + intros a'. apply pair_step_cases; try lia; right; fold n; nia.
    + intros j a' Hj. apply elem_of_py_range in Hj. apply pair_step_cases; lia.
  - intros i a Hi. apply elem_of_py_range in Hi. apply fold_result_total.
    intros j a' Hj. apply elem_of_py_range in Hj. apply pair_step_cases; lia.
Qed.

(** With one column and a row below another, the loop over the columns
    raises when the list ends before the grid does. *)
Lemma vertical_loop_short (ps : list Piece) (rws : Z) (acc : Qc) :
  2 <= rws -> Z.of_nat (length ps) < rws ->
  fold_result (py_range (rws - 1)) (fun i acc =>
    fold_result (py_range 1) (fun j acc =>
      pair_step ps 1 "TD" i j (i + 1) j acc) acc) acc = Raise IndexError.
Proof.
  intros Hr Hlen. set (n := Z.of_nat (length ps)) in *.
  assert (Hn : 0 <= n) by (subst n; lia).
  apply (fold_result_raises _ _ _ (Z.min n (rws - 2))).
  - apply elem_of_py_range. lia.
  - intros a. apply (fold_result_raises _ _ _ 0).
    + apply elem_of_py_range. lia.
    + intros a'. apply pair_step_cases; try lia; right; fold n; lia.
    + intros j a' Hj. apply elem_of_py_range in Hj. apply pair_step_cases; lia.
  - intros i a Hi. apply elem_of_py_range in Hi. apply fold_result_total.
    intros j a' Hj. apply elem_of_py_range in Hj. apply pair_step_cases; lia.
Qed.

Lemma fold_result_skip (xs : list Z) (acc : Qc) :
  fold_result xs (fun _ acc => Ok acc) acc = Ok acc.
Proof. induction xs as [|x xs IH]; simpl; [reflexivity|exact IH]. Qed.

Lemma similarity_of_short (ps : list Piece) (rws cols : Z) :
  0 < rws -> 0 < cols -> 2 <= rws * cols -> Z.of_nat (length ps) < rws * cols ->
  similarity_of ps rws cols = Raise IndexError.
Proof.
  intros Hr Hc Hcells Hlen. unfold similarity_of.
  destruct (Z.le_gt_cases 2 cols) as [Hwide|Hone].
  - rewrite horizontal_loop_short by assumption. reflexivity.
  - assert (cols = 1) by lia. subst cols.
    change (py_range (1 - 1)) with (@nil Z). cbn [fold_result].
    rewrite fold_result_skip. cbn [rbind].
    rewrite vertical_loop_short by lia. reflexivity.
Qed.

(** X10. An Individual that holds fewer pieces than its grid has cells, in a
    grid of two cells or more. Reading its fitness of type Similarity or Sum
    raises [IndexError]; the Similarity computation is entered, the image is
    not assembled, nothing is cached. *)
Theorem X10_fitness_of_short_list (w : World) (self : loc) (o : Individual)
    (ps : list Piece) :
  objs w !! self = Some o -> lists w !! pieces o = Some ps -> _fitness o = None ->
  fitness_type o = Similarity \/ fitness_type o = Sum ->
  0 < rows o -> 0 < columns o -> 2 <= rows o * columns o ->
  Z.of_nat (length ps) < rows o * columns o ->
  fitness self w = (Raise IndexError, logged w [CallSimilarity self]).
Proof.
  intros Ho Hl Hn Hft Hr Hc Hcells Hlen.
  rewrite (fitness_first_run w self o ps Ho Hl Hn). cbv zeta.
  unfold fitness_value_of, calls_of.
  rewrite (similarity_of_short ps (rows o) (columns o) Hr Hc Hcells Hlen).
  destruct Hft as [-> | ->]; reflexivity.
Qed.

(** ** Further facts about the Similarity fitness *)

(** The closed form also holds when the list has more pieces than the grid
    has cells. *)
Lemma similarity_of_cells (ps : list Piece) (rws cols : Z) :
  0 <= rws -> 0 <= cols -> rws * cols <= Z.of_nat (length ps) ->
  similarity_of ps rws cols =
    let fitness_value := (1 / FITNESS_FACTOR + total_dissimilarity ps rws cols)%Qc in
    if decide (fitness_value = 0%Qc) then Raise ZeroDivisionError
    else Ok (FITNESS_FACTOR / fitness_value)%Qc.
Proof.
  intros Hr Hc Hlen. unfold similarity_of.
  rewrite (fold_result_ext _
    (fun i acc => Ok (acc + sum_Qc (map (fun j =>
       pair_dissimilarity ps "LR" ((i * cols + j)%Z, (i * cols + j + 1)%Z))
       (py_range (cols - 1))))%Qc)).
  2:{ intros i acc Hi. apply elem_of_py_range in Hi.
      rewrite <- fold_result_sum. apply fold_result_ext.
      intros j acc' Hj. apply elem_of_py_range in Hj.
      rewrite pair_step_inside by nia.
      replace (i * cols + (j + 1)) with (i * cols + j + 1) by ring. reflexivity. }
  rewrite fold_result_sum. cbn [rbind].
  rewrite (fold_result_ext _
    (fun i acc => Ok (acc + sum_Qc (map (fun j =>
       pair_dissimilarity ps "TD" ((i * cols + j)%Z, ((i + 1) * cols + j)%Z))
       (py_range cols)))%Qc)).
  2:{ intros i acc Hi. apply elem_of_py_range in Hi.
      rewrite <- fold_result_sum. apply fold_result_ext.
      intros j acc' Hj. apply elem_of_py_range in Hj.
      rewrite pair_step_inside by nia. reflexivity. }
  rewrite fold_result_sum. cbn [rbind]. cbv zeta.
  unfold total_dissimilarity, adjacent_h, adjacent_v.
  rewrite !sum_Qc_flat_map.
  assert (E : forall (A : Type) (f : Z * Z -> Qc) (g : A -> Z * Z) (l : list A),
             map f (map g l) = map (fun x => f (g x)) l)
    by (intros; apply map_map).
  erewrite (map_ext (fun x => sum_Qc (map _ (map _ _)))); [|intros; rewrite E; reflexivity].
  erewrite (map_ext (fun x => sum_Qc (map _ (map _ (py_range cols)))));
    [|intros; rewrite E; reflexivity].
  rewrite Qcplus_assoc. reflexivity.
Qed.

(** The sum over the grid reads the pieces of the grid only. *)
Lemma total_dissimilarity_take (ps : list Piece) (rws cols : Z) :
  0 <= rws -> 0 <= cols ->
  total_dissimilarity (take (Z.to_nat (rws * cols)) ps) rws cols
  = total_dissimilarity ps rws cols.
Proof.
  intros Hr Hc. unfold total_dissimilarity. f_equal; f_equal; apply map_ext_in;
    intros [a b] Hin; apply list_elem_of_In in Hin.
  - apply elem_of_adjacent_h in Hin as (Ha & -> & Hb & _); [|assumption..].
    unfold pair_dissimilarity. cbn [fst snd]. rewrite !lookup_take_lt by lia.
    reflexivity.
  - apply elem_of_adjacent_v in Hin as (Ha & -> & Hb); [|assumption..].
    unfold pair_dissimilarity. cbn [fst snd]. rewrite !lookup_take_lt by lia.
    reflexivity.
Qed.

(** X11. Pieces beyond the grid do not count. For an Individual whose list
    has at least [rows * columns] pieces, [_similarity] gives what it gives
    for the Individual that holds the first [rows * columns] of them. *)
Theorem X11_similarity_ignores_pieces_beyond_grid
    (w w' : World) (self self' : loc) (o o' : Individual) (ps : list Piece) :
  objs w !! self = Some o -> lists w !! pieces o = Some ps ->
  objs w' !! self' = Some o' ->
  lists w' !! pieces o' = Some (take (Z.to_nat (rows o * columns o)) ps) ->
  rows o' = rows o -> columns o' = columns o ->
  0 <= rows o -> 0 <= columns o -> rows o * columns o <= Z.of_nat (length ps) ->
  fst (_similarity self w) = fst (_similarity self' w').
Proof.
  intros Ho Hl Ho' Hl' Hr' Hc' Hr Hc Hlen.
  rewrite (similarity_run w self o ps Ho Hl).
  rewrite (similarity_run w' self' o' _ Ho' Hl'). cbn [fst].
  rewrite Hr', Hc'.
  rewrite (similarity_of_cells ps) by assumption.
  rewrite (similarity_of_cells (take _ ps)) by (try assumption; rewrite length_take; nia).
  cbv zeta. rewrite total_dissimilarity_take by assumption. reflexivity.
Qed.

Lemma py_index_map {A B} (f : A -> B) (l : list A) (i : Z) :
  py_index (map f l) i = rbind (py_index l i) (fun x => Ok (f x)).
Proof.
  unfold py_index. rewrite length_map.
  destruct (_ || _); [reflexivity|].
  change (map f l) with (f <$> l). rewrite list_lookup_fmap.
  destruct (l !! _); reflexivity.
Qed.

Lemma py_slice_map {A B} (f : A -> B) (l : list A) (a b : Z) :
  py_slice (map f l) a b = map f (py_slice l a b).
Proof.
  unfold py_slice. rewrite length_map.
  change (map f l) with (f <$> l).
  change (map f (take ?n ?k)) with (f <$> take n k).
  rewrite fmap_take, fmap_drop. reflexivity.
Qed.

(** A cell is read through the ids of the list alone. *)
Lemma cell_id_of_ids (ps : list Piece) (cols i j : Z) :
  cell_id_of ps cols i j =
    py_index (py_slice (map id ps) (i * cols) ((i + 1) * cols)) j.
Proof.
  unfold cell_id_of. rewrite py_slice_map, py_index_map. reflexivity.
Qed.

(** X13. The Similarity computation reads the ids of the pieces and nothing
    else of them. Two Individuals of one shape whose lists carry the same
    ids in the same order get the same result from [_similarity], whatever
    the pixels and sizes of their pieces. *)
Theorem X13_similarity_reads_ids_only
    (w1 w2 : World) (s1 s2 : loc) (o1 o2 : Individual) (ps1 ps2 : list Piece) :
  objs w1 !! s1 = Some o1 -> lists w1 !! pieces o1 = Some ps1 ->
  objs w2 !! s2 = Some o2 -> lists w2 !! pieces o2 = Some ps2 ->
  rows o1 = rows o2 -> columns o1 = columns o2 ->
  map id ps1 = map id ps2 ->
  fst (_similarity s1 w1) = fst (_similarity s2 w2).
Proof.
  intros Ho1 Hl1 Ho2 Hl2 Hr Hc Hids.
  rewrite (similarity_run w1 s1 o1 ps1 Ho1 Hl1).
  rewrite (similarity_run w2 s2 o2 ps2 Ho2 Hl2). cbn [fst].
  rewrite Hr, Hc.
  assert (Hstep : forall orientation i j i' j' acc,
            pair_step ps1 (columns o2) orientation i j i' j' acc =
            pair_step ps2 (columns o2) orientation i j i' j' acc).
  { intros. unfold pair_step. rewrite !cell_id_of_ids, Hids. reflexivity. }
  unfold similarity_of.
  rewrite (fold_result_ext _ (fun i acc =>
    fold_result (py_range (columns o2 - 1)) (fun j acc =>
      pair_step ps2 (columns o2) "LR" i j i (j + 1) acc) acc)).
  2:{ intros i acc _. apply fold_result_ext. intros j acc' _. apply Hstep. }
  destruct (fold_result (py_range (rows o2)) _ _) as [v|e]; [|reflexivity].
  cbn [rbind].
  rewrite (fold_result_ext _ (fun i acc =>
    fold_result (py_range (columns o2)) (fun j acc =>
      pair_step ps2 (columns o2) "TD" i j (i + 1) j acc) acc)).
  2:{ intros i acc _. apply fold_result_ext. intros j acc' _. apply Hstep. }
  reflexivity.
Qed.

End Gaps.

(** ** The theorems at the sample data *)

Lemma sample_dissimilarity_nonneg (ids : Z * Z) (orientation : string) :
  (0 <= Sample.dissimilarity ids orientation)%Qc.
Proof.
  unfold Sample.dissimilarity, Qcle. cbn [this Q2Qc].
  rewrite !Qred_correct. unfold Qle. cbn [Qnum Qden]. lia.
Qed.

Lemma sample_in_order_grid (self : loc) (ft : FitnessType) :
  objs Sample.studio !! self =
    Some (mkIndividual 1%positive 2 3 None ft Sample.in_order_mapping) ->
  grid_individual Sample.studio self
    (mkIndividual 1%positive 2 3 None ft Sample.in_order_mapping) Sample.in_order.
Proof.
  intros H. split; [exact H|]. split; [vm_compute; reflexivity|].
  cbn [rows columns]. split; [lia|]. split; [lia|]. vm_compute. reflexivity.
Qed.

Lemma sample_mixed_grid :
  grid_individual Sample.studio 2%positive
    (mkIndividual 2%positive 2 3 None Similarity Sample.mixed_mapping) Sample.mixed.
Proof.
  split; [vm_compute; reflexivity|]. split; [vm_compute; reflexivity|].
  cbn [rows columns]. split; [lia|]. split; [lia|]. vm_compute. reflexivity.
Qed.

Lemma sample_duo_grid (self : loc) (ids : list Z) (m : gmap Z nat) :
  objs Sample.duo !! self = Some (mkIndividual self 1 2 None Similarity m) ->
  lists Sample.duo !! self = Some (map Sample.piece ids) ->
  length ids = 2%nat ->
  grid_individual Sample.duo self (mkIndividual self 1 2 None Similarity m)
    (map Sample.piece ids).
Proof.
  intros Ho Hl Hlen. split; [exact Ho|]. split; [exact Hl|].
  cbn [rows columns]. split; [lia|]. split; [lia|]. rewrite length_map, Hlen. lia.
Qed.

Lemma C1_witness :
  let sum :=
    fold_left PrimFloat.add (pair_entries Sample.faint Sample.mixed 2 3)
      (1 / 1000)%float in
  fst (_similarity_f64 Sample.faint 2%positive Sample.studio) =
    (if PrimFloat.eqb sum 0 then Raise ZeroDivisionError
     else Ok (1000 / sum)%float) /\
  fst (fitness Sample.dissimilarity Sample.assemble Sample.scorer
         2%positive Sample.studio) =
    fst (_similarity Sample.dissimilarity 2%positive Sample.studio).
Proof.
  destruct (C1_similarity_fitness_in_doubles
              Sample.dissimilarity Sample.assemble Sample.scorer Sample.faint
              Sample.studio 2%positive
              (mkIndividual 2%positive 2 3 None Similarity Sample.mixed_mapping)
              Sample.mixed sample_mixed_grid eq_refl eq_refl)
    as (Hfit & _ & Hrun & _).
  split; [exact Hrun|exact Hfit].
Defined.

(** C1, as the claim states it, fails in doubles. Two arrangements of two
    pieces in one row: the adjacent pair of the first has dissimilarity 0,
    that of the second the double nearest to [1e-20], which is more; and
    both have the Similarity fitness 1000000.0, since [0.001 + 1e-20] is
    rounded to [0.001]. The first, with the lower total, has not the
    strictly higher fitness. Nor is the value the inverse of total plus
    constant, which is 1000.0 for the first arrangement: the code
    multiplies the inverse by 1000. *)
Lemma C1_counterexample :
  grid_individual Sample.duo 1%positive
    (mkIndividual 1%positive 1 2 None Similarity (list_to_map [(0, 0%nat); (1, 1%nat)]))
    (map Sample.piece [0; 1]) /\
  grid_individual Sample.duo 2%positive
    (mkIndividual 2%positive 1 2 None Similarity (list_to_map [(1, 0%nat); (0, 1%nat)]))
    (map Sample.piece [1; 0]) /\
  pair_entries Sample.faint (map Sample.piece [0; 1]) 1 2 = [0%float] /\
  pair_entries Sample.faint (map Sample.piece [1; 0]) 1 2 = [Sample.tiny] /\
  PrimFloat.ltb 0 Sample.tiny = true /\
  fst (_similarity_f64 Sample.faint 1%positive Sample.duo) = Ok 1000000%float /\
  fst (_similarity_f64 Sample.faint 2%positive Sample.duo) = Ok 1000000%float /\
  PrimFloat.eqb 1000000 (1 / (1 / 1000 + 0)) = false.
Proof.
  split; [apply sample_duo_grid; vm_compute; reflexivity|].
  split; [apply sample_duo_grid; vm_compute; reflexivity|].
  repeat split; vm_compute; reflexivity.
Qed.

Lemma sample_six_list : lists Sample.six !! 1%positive = Some Sample.in_order.
Proof. vm_compute. reflexivity. Qed.

Lemma sample_three_list :
  lists Sample.three !! 1%positive = Some (map Sample.piece [0; 1; 2]).
Proof. vm_compute. reflexivity. Qed.

Lemma sample_in_order_NoDup : NoDup (map id Sample.in_order).
Proof. compute_done. Qed.

Lemma C2_witness :
  exists (self : loc) (o : Individual) (ps' : list (Piece Z)),
    fst (__init__ Sample.generator RaisesOnNonMember 1%positive 2 3 true (Member Similarity) Sample.six)
      = Ok self /\
    objs (snd (__init__ Sample.generator RaisesOnNonMember 1%positive 2 3 true (Member Similarity)
                 Sample.six)) !! self = Some o /\
    lists (snd (__init__ Sample.generator RaisesOnNonMember 1%positive 2 3 true (Member Similarity)
                  Sample.six)) !! pieces o = Some ps' /\
    ps' ≡ₚ Sample.in_order /\
    NoDup (map id ps').
Proof.
  destruct (C2_construction_is_a_permutation Sample.generator RaisesOnNonMember
              Sample.six 1%positive
              Sample.in_order 2 3 true Similarity
              sample_six_list sample_in_order_NoDup)
    as (self & o & ps' & H1 & H2 & H3 & H4 & H5 & _).
  exists self, o, ps'. repeat (split; [assumption|]). assumption.
Defined.

Lemma C3_witness :
  0 <= adjacent_position 3 Top 4 < 2 * 3 /\
  exists q : Piece Z,
    Sample.in_order !! Z.to_nat (adjacent_position 3 Top 4) = Some q /\
    edge 1%positive (id (Sample.piece 4)) (side_code Top) Sample.studio
      = (Ok (Some (id q)), Sample.studio).
Proof.
  exact (C3_edge_returns_grid_neighbour Sample.studio 1%positive
           (mkIndividual 1%positive 2 3 None Similarity Sample.in_order_mapping)
           Sample.in_order 4%nat (Sample.piece 4) Top
           (sample_in_order_grid 1%positive Similarity eq_refl)
           eq_refl sample_in_order_NoDup eq_refl).
Defined.

Lemma C4_witness :
  fst (fitness Sample.dissimilarity Sample.assemble Sample.scorer
         4%positive Sample.studio) =
    rbind (fst (_similarity Sample.dissimilarity 4%positive Sample.studio)) (fun a =>
    rbind (fst (_semantic_consistency Sample.assemble Sample.scorer
                  4%positive Sample.studio)) (fun b => Ok (a + b)%Qc)) /\
  fst (fitness Sample.dissimilarity Sample.assemble Sample.scorer
         4%positive Sample.studio) =
    rbind (fst (fitness Sample.dissimilarity Sample.assemble Sample.scorer
                  1%positive Sample.studio)) (fun a =>
    rbind (fst (fitness Sample.dissimilarity Sample.assemble Sample.scorer
                  3%positive Sample.studio)) (fun b => Ok (a + b)%Qc)).
Proof.
  destruct (C4_sum_is_similarity_plus_semantic Sample.dissimilarity Sample.assemble
              Sample.scorer Sample.studio Sample.studio Sample.studio
              1%positive 3%positive 4%positive
              (mkIndividual 1%positive 2 3 None Similarity Sample.in_order_mapping)
              (mkIndividual 1%positive 2 3 None Semantic Sample.in_order_mapping)
              (mkIndividual 1%positive 2 3 None Sum Sample.in_order_mapping)
              Sample.in_order
              eq_refl eq_refl eq_refl eq_refl eq_refl eq_refl
              eq_refl eq_refl eq_refl eq_refl eq_refl eq_refl eq_refl
              eq_refl eq_refl eq_refl)
    as (Hsum & _ & _ & _ & _ & Hreads).
  split; [exact Hsum|exact Hreads].
Defined.

Lemma C5_witness :
  exists (v : Qc) (w1 : World Z),
    fitness Sample.dissimilarity Sample.assemble Sample.scorer 4%positive Sample.studio
      = (Ok v, w1) /\
    trace w1 = [CallSimilarity 4%positive; CallSemantic 4%positive] /\
    forall n : nat,
      fitness_reads Sample.dissimilarity Sample.assemble Sample.scorer n 4%positive w1
        = (Ok (repeat v n), w1).
Proof.
  destruct (C5_fitness_is_computed_once_and_cached Sample.dissimilarity Sample.assemble
              Sample.scorer Sample.generator RaisesOnNonMember Sample.studio 4%positive
              (mkIndividual 1%positive 2 3 None Sum Sample.in_order_mapping)
              Sample.in_order Sum
              (sample_in_order_grid 4%positive Sum eq_refl) eq_refl eq_refl
              sample_dissimilarity_nonneg)
    as (v & w1 & o1 & Hrun & Htrace & _ & _ & _ & Hreads & _).
  exists v, w1. split; [exact Hrun|]. split; [|exact Hreads].
  rewrite Htrace. vm_compute. reflexivity.
Defined.



Lemma C7_witness :
  exists (self : loc) (o : Individual) (ps' : list (Piece Z)),
    let w' := snd (__init__ Sample.generator RaisesOnNonMember 1%positive 2 2 true
                     (Member Similarity) Sample.three) in
    fst (__init__ Sample.generator RaisesOnNonMember 1%positive 2 2 true
           (Member Similarity) Sample.three) = Ok self /\
    objs w' !! self = Some o /\
    rows o = 2 /\ columns o = 2 /\
    lists w' !! pieces o = Some ps' /\
    ps' ≡ₚ map Sample.piece [0; 1; 2] /\
    (true = false -> ps' = map Sample.piece [0; 1; 2]) /\
    length ps' = 3%nat.
Proof.
  exact (C7_construction_accepts_any_piece_count Sample.generator RaisesOnNonMember
           Sample.three 1%positive (map Sample.piece [0; 1; 2]) 2 2 true Similarity
           sample_three_list).
Defined.

(** C7, as the claim states it, fails: three pieces are not the four of a
    grid of two rows and two columns, and the construction returns the new
    Individual all the same. *)
Lemma C7_counterexample :
  lists Sample.three !! 1%positive = Some (map Sample.piece [0; 1; 2]) /\
  Z.of_nat (length (map Sample.piece [0; 1; 2])) <> 2 * 2 /\
  fst (__init__ Sample.generator RaisesOnNonMember 1%positive 2 2 true (Member Similarity) Sample.three)
    = Ok 1%positive.
Proof.
  split; [exact sample_three_list|]. split; [cbn; lia|]. vm_compute. reflexivity.
Qed.

Lemma C8_witness :
  fst (fitness Sample.dissimilarity Sample.assemble Sample.scorer
         3%positive Sample.studio) =
    Ok (Sample.scorer (Sample.assemble (map image Sample.in_order) 2 3) (2%Z, 3%Z)
        * Q2Qc (10 # 1))%Qc /\
  fst (to_image Sample.assemble 3%positive Sample.studio) =
    Ok (Sample.assemble (map image Sample.in_order) 2 3).
Proof.
  apply (C8_semantic_fitness_is_scaled_score Sample.dissimilarity Sample.assemble
           Sample.scorer Sample.studio 3%positive
           (mkIndividual 1%positive 2 3 None Semantic Sample.in_order_mapping)
           Sample.in_order);
    vm_compute; reflexivity.
Defined.

Lemma C9_witness :
  exists (self : loc) (o : Individual) (ps' : list (Piece Z)),
    let w' := snd (__init__ Sample.generator RaisesOnNonMember 1%positive 2 3 true (Member Similarity)
                     Sample.six) in
    fst (__init__ Sample.generator RaisesOnNonMember 1%positive 2 3 true (Member Similarity) Sample.six)
      = Ok self /\
    objs w' !! self = Some o /\
    lists w' !! pieces o = Some ps' /\
    mapping_built o ps' /\
    forall (k : nat) (p : Piece Z),
      ps' !! k = Some p -> piece_by_id self (id p) w' = (Ok p, w').
Proof.
  exact (C9_piece_by_id_inverts_indexing Sample.generator RaisesOnNonMember Sample.six 1%positive
           Sample.in_order 2 3 true Similarity
           sample_six_list sample_in_order_NoDup).
Defined.

Lemma C10_witness :
  lists (snd (__init__ Sample.generator RaisesOnNonMember 1%positive 2 3 true (Member Similarity)
                Sample.six)) !! 1%positive = Some Sample.in_order.
Proof.
  apply (C10_caller_list_unchanged Sample.generator RaisesOnNonMember Sample.six 1%positive
           Sample.in_order 2 3 true (Member Similarity) sample_six_list).
Defined.

(** ** Further facts about the command line *)

Lemma validate_positive_integer_Ok (value : Z) :
  0 < value -> Cli._validate_positive_integer value = Ok value.
Proof.
  intros H. unfold Cli._validate_positive_integer.
  destruct (Z.leb_spec value 0); [lia|reflexivity].
Qed.

Lemma invoke_run_checked (puzzle_readable : bool) (detected_size : Z)
    (fittest_count : nat) (population_first : bool)
    (size generations population fitness_type : option Z) (debug : bool) :
  0 < default Cli.DEFAULT_GENERATIONS generations ->
  0 < default Cli.DEFAULT_POPULATION population ->
  Cli.invoke_run puzzle_readable detected_size fittest_count population_first size
    generations population fitness_type debug =
  if puzzle_readable
  then Cli.run detected_size fittest_count size
         (default Cli.DEFAULT_GENERATIONS generations)
         (default Cli.DEFAULT_POPULATION population) (default 1 fitness_type) debug
  else (Raise BadParameter, []).
Proof.
  intros Hg Hp. unfold Cli.invoke_run.
  rewrite (validate_positive_integer_Ok _ Hg), (validate_positive_integer_Ok _ Hp).
  destruct puzzle_readable, population_first; reflexivity.
Qed.

(** X14. A fitness type other than 1, 2, 3 given to [run], with valid counts
    and a readable puzzle, makes the command raise [ValueError] when the
    arguments of the [GeneticAlgorithm] call are evaluated: by then the
    image has been read and the solution directory made, and no
    [GeneticAlgorithm] is constructed and nothing is written. With a
    puzzle path that is not readable the command fails with a parameter
    error before its body does anything. *)
Theorem X14_run_unsupported_fitness_type (puzzle_readable : bool)
    (detected_size : Z) (fittest_count : nat)
    (population_first : bool) (size generations population fitness_type : option Z)
    (debug : bool) :
  0 < default Cli.DEFAULT_GENERATIONS generations ->
  0 < default Cli.DEFAULT_POPULATION population ->
  ~ (1 <= default 1 fitness_type <= 3) ->
  exists acts : list Cli.Action,
    Cli.invoke_run puzzle_readable detected_size fittest_count population_first size
      generations population fitness_type debug =
      (if puzzle_readable then (Raise ValueError, acts)
       else (Raise BadParameter, [])) /\
    Cli.Imread ∈ acts /\ Cli.Makedirs ∈ acts /\
    (Cli.Imwrite ∉ acts) /\
    forall s p g ft, Cli.NewGeneticAlgorithm s p g ft ∉ acts.
Proof.
  intros Hg Hp Hft. rewrite invoke_run_checked by assumption.
  unfold Cli.run, Cli.FitnessType_of_value.
  destruct (Z.eqb_spec (default 1 fitness_type) 1); [lia|].
  destruct (Z.eqb_spec (default 1 fitness_type) 2); [lia|].
  destruct (Z.eqb_spec (default 1 fitness_type) 3); [lia|].
  destruct size as [s|]; eexists;
    (split; [destruct puzzle_readable; reflexivity|]); cbn [app];
    (split; [|split; [|split]]);
    repeat first [ apply list_elem_of_here | apply list_elem_of_further ];
    try (intros; intros H;
         repeat (apply elem_of_cons in H as [H|H]; [discriminate|]);
         inversion H).
Qed.

(** X16. [create] with a piece size below 32 or above 128 (after the default
    128) fails with a parameter error before the image is read, whatever
    the checks of the two paths give: nothing is written and the generator
    is left as it is. *)
Theorem X16_create_rejects_piece_size {Pixels Image : Type}
    (image_readable puzzle_writable : bool) (input_image : Image)
    (flatten_image : Image -> Z -> Result (list Pixels * Z * Z))
    (assemble_image : list Pixels -> Z -> Z -> Result Image)
    (random_interval : nat -> nat -> nat * nat)
    (size : option Z) (state : nat) :
  default Cli.MAX_PIECE_SIZE size < Cli.MIN_PIECE_SIZE \/
    Cli.MAX_PIECE_SIZE < default Cli.MAX_PIECE_SIZE size ->
  Cli.invoke_create image_readable puzzle_writable input_image flatten_image
    assemble_image random_interval size state
    = (Raise BadParameter, [], state).
Proof.
  intros H. unfold Cli.invoke_create, Cli._validate_piece_size.
  destruct (negb image_readable || negb puzzle_writable); [reflexivity|].
  destruct (Z.ltb_spec (default Cli.MAX_PIECE_SIZE size) Cli.MIN_PIECE_SIZE);
    [reflexivity|].
  destruct (Z.ltb_spec Cli.MAX_PIECE_SIZE (default Cli.MAX_PIECE_SIZE size));
    [reflexivity|lia].
Qed.

(** X17. [create] with paths that pass their checks and a piece size from 32
    to 128, when flattening returns, shuffles the pieces and assembles an
    image from the shuffled list, a permutation of the pieces that
    flattening gives, with the rows and columns that flattening gives.
    When assembling returns, the command writes that one image and reports
    the number of pieces; when it raises, the exception comes out and
    nothing is written. *)
Theorem X17_create_writes_shuffled_puzzle {Pixels Image : Type}
    (image_readable puzzle_writable : bool) (input_image : Image)
    (flatten_image : Image -> Z -> Result (list Pixels * Z * Z))
    (assemble_image : list Pixels -> Z -> Z -> Result Image)
    (random_interval : nat -> nat -> nat * nat)
    (size : option Z) (state : nat) (pieces : list Pixels) (rows columns : Z) :
  image_readable = true -> puzzle_writable = true ->
  Cli.MIN_PIECE_SIZE <= default Cli.MAX_PIECE_SIZE size <= Cli.MAX_PIECE_SIZE ->
  flatten_image input_image (default Cli.MAX_PIECE_SIZE size)
    = Ok (pieces, rows, columns) ->
  exists (shuffled : list Pixels) (state' : nat),
    np_shuffle random_interval pieces state = (shuffled, state') /\
    shuffled ≡ₚ pieces /\
    Cli.invoke_create image_readable puzzle_writable input_image flatten_image
      assemble_image random_interval size state
      = match assemble_image shuffled rows columns with
        | Ok output_image =>
            (Ok tt,
             [Cli.ReadImage; Cli.WriteImage output_image;
              Cli.EchoCreated (Z.of_nat (length pieces))],
             state')
        | Raise e => (Raise e, [Cli.ReadImage], state')
        end.
Proof.
  intros -> -> Hs Hflat. unfold Cli.invoke_create, Cli._validate_piece_size.
  cbn [negb orb].
  destruct (Z.ltb_spec (default Cli.MAX_PIECE_SIZE size) Cli.MIN_PIECE_SIZE); [lia|].
  destruct (Z.ltb_spec Cli.MAX_PIECE_SIZE (default Cli.MAX_PIECE_SIZE size)); [lia|].
  unfold Cli.create. rewrite Hflat.
  pose proof (shuffle_steps_Permutation random_interval (length pieces - 1) pieces
                state) as Hp.
  unfold np_shuffle.
  destruct (shuffle_steps random_interval (length pieces - 1) pieces state)
    as [qs state'].
  cbn [fst] in Hp.
  exists qs, state'. split; [reflexivity|]. split; [exact Hp|].
  rewrite (Permutation_length Hp).
  destruct (assemble_image qs rows columns); reflexivity.
Qed.

(** ** The further facts at the sample data *)

Lemma sample_in_order_sizes (p : Piece Z) : p ∈ Sample.in_order -> size p = 32.
Proof.
  intros Hp. apply list_elem_of_fmap in Hp as (n & -> & _). reflexivity.
Qed.

Lemma X1_witness :
  exists (self : loc) (o : Individual) (ps' : list (Piece Z)),
    let w' := snd (__init__ Sample.generator RaisesOnNonMember 1%positive 2 3 false
                     (Member Sum) Sample.six) in
    fst (__init__ Sample.generator RaisesOnNonMember 1%positive 2 3 false (Member Sum)
           Sample.six) = Ok self /\
    objs w' !! self = Some o /\
    lists w' !! pieces o = Some ps' /\
    fitness_type o = Sum /\ _fitness o = None /\
    trace w' = trace Sample.six /\
    (false = false -> ps' = Sample.in_order /\ rng w' = rng Sample.six) /\
    ((length Sample.in_order <= 1)%nat ->
     ps' = Sample.in_order /\ rng w' = rng Sample.six).
Proof.
  exact (X1_constructor_keeps_order_without_shuffle Sample.generator RaisesOnNonMember Sample.six
           1%positive Sample.in_order 2 3 false Sum sample_six_list).
Defined.

Lemma X2_witness :
  exists (k : nat) (p : Piece Z),
    Sample.in_order !! k = Some p /\ id p = 4 /\
    piece_by_id 1%positive 4 Sample.studio = (Ok p, Sample.studio).
Proof.
  destruct (X2_piece_by_id_last_or_KeyError Sample.studio 1%positive
              (mkIndividual 1%positive 2 3 None Similarity Sample.in_order_mapping)
              Sample.in_order 4 eq_refl eq_refl eq_refl) as [_ H].
  destruct H as (k & p & Hk & Hp & _ & Hrun); [compute_done|].
  exists k, p. split; [exact Hk|]. split; [exact Hp|exact Hrun].
Defined.

Lemma X3_witness :
  edge 1%positive 1 (side_code (opposite Top)) Sample.studio
    = (Ok (Some (id (Sample.piece 4))), Sample.studio).
Proof.
  apply (X3_edge_neighbours_are_mutual Sample.studio 1%positive
           (mkIndividual 1%positive 2 3 None Similarity Sample.in_order_mapping)
           Sample.in_order 4%nat (Sample.piece 4) Top 1
           (sample_in_order_grid 1%positive Similarity eq_refl)
           eq_refl sample_in_order_NoDup eq_refl).
  vm_compute. reflexivity.
Defined.

Lemma X4_witness :
  edge 1%positive 4 "top" Sample.studio = (Ok None, Sample.studio).
Proof.
  apply (X4_edge_unknown_orientation Sample.studio 1%positive
           (mkIndividual 1%positive 2 3 None Similarity Sample.in_order_mapping)
           4 4%nat "top"); try discriminate; vm_compute; reflexivity.
Defined.

Lemma X5_witness :
  edge 1%positive 99 "T" Sample.studio = (Raise KeyError, Sample.studio).
Proof.
  apply (X5_edge_unknown_id Sample.studio 1%positive
           (mkIndividual 1%positive 2 3 None Similarity Sample.in_order_mapping)
           Sample.in_order 99 "T" eq_refl eq_refl).
  compute_done.
Defined.

Lemma X6_witness :
  edge 1%positive 4 (side_code Right) Sample.degenerate
    = (Raise ZeroDivisionError, Sample.degenerate).
Proof.
  apply (X6_edge_zero_columns Sample.degenerate 1%positive
           (mkIndividual 1%positive 2 0 None Similarity Sample.in_order_mapping)
           4 4%nat Right); [vm_compute; reflexivity..|reflexivity|left; reflexivity].
Defined.

Lemma X7_witness :
  exists row : Z -> list (Piece Z),
    (forall i, __getitem__ 1%positive i Sample.studio = (Ok (row i), Sample.studio)) /\
    concat (map row (py_range 2)) = Sample.in_order.
Proof.
  destruct (X7_getitem_rows Sample.studio 1%positive
              (mkIndividual 1%positive 2 3 None Similarity Sample.in_order_mapping)
              Sample.in_order (sample_in_order_grid 1%positive Similarity eq_refl))
    as (row & Hrun & _ & _ & Hcat & _).
  exists row. split; [exact Hrun|exact Hcat].
Defined.

Lemma X8_witness :
  piece_size 1%positive Sample.studio = (Ok 32, Sample.studio).
Proof.
  exact (X8_piece_size Sample.studio 1%positive
           (mkIndividual 1%positive 2 3 None Similarity Sample.in_order_mapping)
           Sample.in_order 32 eq_refl eq_refl sample_in_order_sizes).
Defined.

Lemma sample_short_raises :
  fitness_value_of Sample.dissimilarity Sample.assemble Sample.scorer
    Similarity (map Sample.piece [0; 1; 2]) 2 2 = Raise IndexError.
Proof. vm_compute. reflexivity. Qed.

Lemma X9_witness :
  exists w1 w2 : World Z,
    fitness Sample.dissimilarity Sample.assemble Sample.scorer 1%positive Sample.short
      = (Raise IndexError, w1) /\
    fitness Sample.dissimilarity Sample.assemble Sample.scorer 1%positive w1
      = (Raise IndexError, w2) /\
    objs w2 = objs Sample.short.
Proof.
  destruct (X9_fitness_failure_is_not_cached Sample.dissimilarity Sample.assemble
              Sample.scorer Sample.short 1%positive
              (mkIndividual 1%positive 2 2 None Similarity
                 (list_to_map [(0, 0%nat); (1, 1%nat); (2, 2%nat)]))
              (map Sample.piece [0; 1; 2]) IndexError
              eq_refl eq_refl eq_refl sample_short_raises)
    as (w1 & w2 & H1 & _ & _ & _ & H2 & Ho & _).
  exists w1, w2. split; [exact H1|]. split; [exact H2|exact Ho].
Defined.

Lemma X10_witness :
  fitness Sample.dissimilarity Sample.assemble Sample.scorer 1%positive Sample.short
    = (Raise IndexError, logged Sample.short [CallSimilarity 1%positive]).
Proof.
  apply (X10_fitness_of_short_list Sample.dissimilarity Sample.assemble Sample.scorer
           Sample.short 1%positive
           (mkIndividual 1%positive 2 2 None Similarity
              (list_to_map [(0, 0%nat); (1, 1%nat); (2, 2%nat)]))
           (map Sample.piece [0; 1; 2]));
    first [ reflexivity | left; reflexivity | cbn; lia ].
Defined.

Lemma X11_witness :
  fst (_similarity Sample.dissimilarity 1%positive Sample.cropped)
    = fst (_similarity Sample.dissimilarity 2%positive Sample.cropped).
Proof.
  apply (X11_similarity_ignores_pieces_beyond_grid Sample.dissimilarity
           Sample.cropped Sample.cropped 1%positive 2%positive
           (mkIndividual 1%positive 1 3 None Similarity Sample.in_order_mapping)
           (mkIndividual 2%positive 1 3 None Similarity Sample.in_order_mapping)
           Sample.in_order);
    first [ reflexivity | cbn; lia ].
Defined.

Lemma X13_witness :
  fst (_similarity Sample.dissimilarity 2%positive Sample.cropped)
    = fst (_similarity Sample.dissimilarity 3%positive Sample.cropped).
Proof.
  apply (X13_similarity_reads_ids_only Sample.dissimilarity
           Sample.cropped Sample.cropped 2%positive 3%positive
           (mkIndividual 2%positive 1 3 None Similarity Sample.in_order_mapping)
           (mkIndividual 3%positive 1 3 None Similarity Sample.in_order_mapping)
           (map Sample.piece [0; 1; 2])
           [mkPiece 0 7 16; mkPiece 1 8 16; mkPiece 2 9 16]);
    reflexivity.
Defined.

Lemma X14_witness :
  exists acts : list Cli.Action,
    Cli.invoke_run true 64 3 false None None None (Some 7) false
      = (Raise ValueError, acts) /\
    Cli.Makedirs ∈ acts /\
    forall s p g ft, Cli.NewGeneticAlgorithm s p g ft ∉ acts.
Proof.
  destruct (X14_run_unsupported_fitness_type true 64 3 false None None None (Some 7)
              false)
    as (acts & Hrun & _ & Hdir & _ & Hga);
    [unfold Cli.DEFAULT_GENERATIONS, Cli.DEFAULT_POPULATION; cbn; lia..|].
  exists acts. split; [exact Hrun|]. split; [exact Hdir|exact Hga].
Defined.

Lemma X16_witness :
  Cli.invoke_create true true [1; 2; 3; 4] Sample.flatten Sample.assemble_checked
    Sample.generator (Some 16) 0 = (Raise BadParameter, [], 0%nat).
Proof.
  apply (X16_create_rejects_piece_size true true [1; 2; 3; 4] Sample.flatten
           Sample.assemble_checked Sample.generator (Some 16) 0).
  left. unfold Cli.MIN_PIECE_SIZE, Cli.MAX_PIECE_SIZE; cbn; lia.
Defined.

Lemma X17_witness :
  exists (shuffled : list Z) (state' : nat),
    np_shuffle Sample.generator [1; 2; 3; 4] 0 = (shuffled, state') /\
    shuffled ≡ₚ [1; 2; 3; 4] /\
    Cli.invoke_create true true [1; 2; 3; 4] Sample.flatten Sample.assemble_checked
      Sample.generator None 0
      = (Ok tt,
         [Cli.ReadImage; Cli.WriteImage shuffled; Cli.EchoCreated 4],
         state').
Proof.
  exact (X17_create_writes_shuffled_puzzle true true [1; 2; 3; 4] Sample.flatten
           Sample.assemble_checked Sample.generator None 0 [1; 2; 3; 4] 1 4
           eq_refl eq_refl
           ltac:(unfold Cli.MIN_PIECE_SIZE, Cli.MAX_PIECE_SIZE; cbn; lia) eq_refl).
Defined.
